(** * vsce publish pipeline: a shallow embedding of [src/publish.ts]

    The module under study packages, publishes, lists and unpublishes
    extensions.  Its functions are promise chains over external
    collaborators (the archive reader, the manifest store, the credential
    store, the gallery client, the interactive prompt).  The embedding keeps
    that shape:

    - a promise is an [outcome] (resolved, rejected, or never settled) paired
      with the list of external calls it issued, in program order;
    - every external collaborator is an oracle of an environment [Env];
    - the event-driven archive scan of [readManifestFromPackage] is a state
      machine over the events the zip reader and its entry streams emit. *)

From Stdlib Require Import String Ascii ZArith List Bool Lia.
From Stdlib.Strings Require Import Byte.
From stdpp Require Import base gmap.
Import ListNotations.
Local Open Scope string_scope.

(** ** JavaScript values and strings *)

(** A string slot that JavaScript may leave [null] or [undefined]. *)
Inductive value : Type :=
  | VStr (s : string)
  | VNull
  | VUndefined.

(** Rendering inside a template literal. *)
Definition template (v : value) : string :=
  match v with
  | VStr s => s
  | VNull => "null"
  | VUndefined => "undefined"
  end.

(** [a === b] where [a] is a string. *)
Definition strict_eq_str (a : string) (b : value) : bool :=
  match b with
  | VStr s => String.eqb a s
  | _ => false
  end.

(** [a !== b] on string slots. *)
Definition strict_neq (a b : value) : bool :=
  match a, b with
  | VStr x, VStr y => negb (String.eqb x y)
  | VNull, VNull => false
  | VUndefined, VUndefined => false
  | _, _ => true
  end.

(** A [string | null] result as a slot. *)
Definition of_nullable (o : option string) : value :=
  match o with
  | Some s => VStr s
  | None => VNull
  end.

(** Truthiness of an optional string field: absent and empty are falsy. *)
Definition truthy (o : option string) : option string :=
  match o with
  | Some EmptyString => None
  | Some s => Some s
  | None => None
  end.

Definition is_truthy (o : option string) : bool :=
  match truthy o with
  | Some _ => true
  | None => false
  end.

(** ASCII case folding, as the [i] flag does on a pattern of ASCII letters. *)
Definition lower_ascii (c : ascii) : ascii :=
  let n := nat_of_ascii c in
  if (65 <=? n)%nat && (n <=? 90)%nat then ascii_of_nat (n + 32) else c.

Fixpoint lower (s : string) : string :=
  match s with
  | EmptyString => EmptyString
  | String c r => String (lower_ascii c) (lower r)
  end.

(** [/^extension\/package\.json$/i.test(fileName)] *)
Definition is_manifest_entry (fileName : string) : bool :=
  String.eqb (lower fileName) "extension/package.json".

(** [/^y$/i.test(answer)] *)
Definition is_yes (answer : string) : bool :=
  String.eqb (lower answer) "y".

(** [haystack] contains [needle], as an unanchored literal pattern tests. *)
Fixpoint includes (needle haystack : string) : bool :=
  String.prefix needle haystack ||
  match haystack with
  | EmptyString => false
  | String _ r => includes needle r
  end.

(** [s.split(sep)] for a one-character separator. *)
Fixpoint split (sep : ascii) (s : string) : list string :=
  match s with
  | EmptyString => [EmptyString]
  | String c r =>
      if Ascii.eqb c sep then EmptyString :: split sep r
      else match split sep r with
           | [] => [String c EmptyString]
           | hd :: tl => String c hd :: tl
           end
  end.

(** Array destructuring: a missing position is [undefined]. *)
Definition item (l : list string) (i : nat) : value :=
  match nth_error l i with
  | Some s => VStr s
  | None => VUndefined
  end.

(** ** Errors and promises *)

(** A rejection reason: a bare string, or an error object with the two
    properties the module inspects. *)
Inductive error : Type :=
  | ErrString (s : string)
  | ErrObject (statusCode : option Z) (message : string).

(** [err.statusCode === code] *)
Definition has_status (err : error) (code : Z) : bool :=
  match err with
  | ErrObject (Some c) _ => Z.eqb c code
  | _ => false
  end.

Inductive outcome (A : Type) : Type :=
  | Resolved (a : A)
  | Rejected (e : error)
  | Pending.
Arguments Resolved {A} a.
Arguments Rejected {A} e.
Arguments Pending {A}.

(** ** Data model *)

Record Manifest : Type := {
  publisher : string;
  name : string;
  version : value;
  enableProposedApi : bool
}.

Definition set_version (m : Manifest) (v : value) : Manifest :=
  {| publisher := publisher m; name := name m; version := v;
     enableProposedApi := enableProposedApi m |}.

Record IPackageResult : Type := {
  manifest : Manifest;
  packagePath : string
}.

Record ExtensionVersion : Type := { ev_version : string }.

Record PublishedExtension : Type := { versions : list ExtensionVersion }.

Record IPublisher : Type := { publisher_pat : string }.

Record IPublishOptions : Type := {
  opt_packagePath : option string;
  opt_version : option string;
  opt_cwd : option string;
  opt_pat : option string;
  opt_baseContentUrl : option string;
  opt_baseImagesUrl : option string;
  opt_id : option string
}.

Record PackOptions : Type := {
  pack_packagePath : string;
  pack_cwd : option string;
  pack_baseContentUrl : option string;
  pack_baseImagesUrl : option string
}.

(** ** The archive scan as a state machine *)

Record Entry : Type := { entry_id : nat; fileName : string }.

(** What the zip reader and the entry streams deliver to the listeners. *)
Inductive zip_event : Type :=
  | ZipEntry (entry : Entry)
  | ZipEnd
  | ReadStreamCallback (id : nat) (err : option error)
  | StreamData (id : nat) (buffer : list byte)
  | StreamError (id : nat) (err : error)
  | StreamEnd (id : nat).

(** Listeners and accumulated chunks of one opened entry stream. *)
Record stream : Type := {
  buffers : list (list byte);
  on_error : bool;
  on_end : bool
}.

Record zip_state : Type := {
  end_listener : bool;
  opening : gset nat;
  streams : gmap nat stream;
  settled : option (error + Manifest)
}.

Definition zip_init : zip_state :=
  {| end_listener := true; opening := ∅; streams := ∅; settled := None |}.

(** Calling [c] or [e]: only the first call settles the promise. *)
Definition settle (r : error + Manifest) (s : zip_state) : zip_state :=
  match settled s with
  | Some _ => s
  | None =>
      {| end_listener := end_listener s; opening := opening s;
         streams := streams s; settled := Some r |}
  end.

Definition with_end_listener (b : bool) (s : zip_state) : zip_state :=
  {| end_listener := b; opening := opening s;
     streams := streams s; settled := settled s |}.

Definition with_opening (o : gset nat) (s : zip_state) : zip_state :=
  {| end_listener := end_listener s; opening := o;
     streams := streams s; settled := settled s |}.

Definition with_streams (m : gmap nat stream) (s : zip_state) : zip_state :=
  {| end_listener := end_listener s; opening := opening s;
     streams := m; settled := settled s |}.

Definition manifest_not_found : error := ErrObject None "Manifest not found".

(** ** External calls and the environment *)

(** Calls that leave the module, recorded when they are issued. *)
Inductive event : Type :=
  | EvYauzlOpen (packagePath : string)
  | EvReadManifest (cwd : option string) (nls : option bool)
  | EvWriteManifest (cwd : string) (m : Manifest)
  | EvTmpName
  | EvPack (options : PackOptions)
  | EvGetPublisher (publisher : value)
  | EvGetGalleryAPI (pat : string)
  | EvCreateReadStream (packagePath : string)
  | EvLog (message : string)
  | EvGetExtension (publisher name : string)
  | EvCreateExtension (packagePath : string)
  | EvUpdateExtension (packagePath publisher name : string)
  | EvDeleteExtension (publisher name : value)
  | EvRead (prompt : string).

(** Requests sent to the gallery. *)
Definition is_network (ev : event) : bool :=
  match ev with
  | EvGetExtension _ _ | EvCreateExtension _ | EvUpdateExtension _ _ _
  | EvDeleteExtension _ _ => true
  | _ => false
  end.

(** The two transfer calls. *)
Definition is_transfer (ev : event) : bool :=
  match ev with
  | EvCreateExtension _ | EvUpdateExtension _ _ _ => true
  | _ => false
  end.

Definition is_delete (ev : event) : bool :=
  match ev with
  | EvDeleteExtension _ _ => true
  | _ => false
  end.

Definition is_credential_lookup (ev : event) : bool :=
  match ev with
  | EvGetPublisher _ => true
  | _ => false
  end.

Definition is_prompt (ev : event) : bool :=
  match ev with
  | EvRead _ => true
  | _ => false
  end.

(** What the collaborators answer.  They live outside [publish.ts] and are
    oracles here: [yauzl.open] gives an error or the events the opened
    archive will deliver; [readManifest], [writeManifest] and [pack] come
    from [./package], [getPublisher] from [./store], [read] from [./util],
    [tmpName] from [tmp]; the last four are the methods of the client that
    [getGalleryAPI] builds, and take the token it was built from as their
    first argument. *)
Record Env : Type := {
  process_cwd : string;
  yauzl_open : string -> error + list zip_event;
  readManifest : option string -> option bool -> outcome Manifest;
  writeManifest : string -> Manifest -> outcome unit;
  tmpName : outcome string;
  pack : PackOptions -> outcome IPackageResult;
  getPublisher : value -> outcome IPublisher;
  read : string -> outcome string;
  getExtension : string -> string -> string ->
                 outcome (option PublishedExtension);
  createExtension : string -> string -> outcome unit;
  updateExtension : string -> string -> string -> string -> outcome unit;
  deleteExtension : string -> value -> value -> outcome unit
}.

(** A promise chain: the calls issued so far and how the chain ends. *)
Definition M (A : Type) : Type := (list event * outcome A)%type.

#[export] Instance M_ret : MRet M := fun A a => ([], Resolved a).

#[export] Instance M_bind : MBind M := fun A B f m =>
  match m with
  | (t, Resolved a) => let '(t', r) := f a in ((t ++ t')%list, r)
  | (t, Rejected e) => (t, Rejected e)
  | (t, Pending) => (t, Pending)
  end.

Definition reject {A : Type} (e : error) : M A := ([], Rejected e).

Definition call {A : Type} (ev : event) (o : outcome A) : M A := ([ev], o).

Definition emit (ev : event) : M unit := ([ev], Resolved tt).

(** [p.catch(h)] *)
Definition catch {A : Type} (m : M A) (h : error -> M A) : M A :=
  match m with
  | (t, Rejected e) => let '(t', r) := h e in ((t ++ t')%list, r)
  | _ => m
  end.

(** A promise created now and consumed later: its calls are issued where it
    is created, its outcome is observed where it is chained. *)
Definition start {A : Type} (m : M A) : M (outcome A) :=
  (fst m, Resolved (snd m)).

Definition await {A : Type} (o : outcome A) : M A := ([], o).

Definition nl : string := String (ascii_of_nat 10) EmptyString.

Definition expired_pat_hint : string :=
  nl ++ nl ++
  "You're likely using an expired Personal Access Token, please get a new PAT."
  ++ nl ++ "More info: https://aka.ms/vscodepat".

(** The last [catch] of [_publish]. *)
Definition explain_invalid_resource (err : error) : error :=
  match err with
  | ErrObject code message =>
      if includes "Invalid Resource" message
      then ErrObject code (message ++ expired_pat_hint)
      else err
  | ErrString _ => err
  end.

Definition fullName_of (m : Manifest) : string :=
  publisher m ++ "." ++ name m ++ "@" ++ template (version m).

Definition has_version (extension : PublishedExtension) (m : Manifest) : bool :=
  existsb (fun v => strict_eq_str (ev_version v) (version m))
    (versions extension).

Definition proposed_api_error : error :=
  ErrObject None
    "Extensions using proposed API (enableProposedApi: true) can't be published to the Marketplace".

Definition is_bump_keyword (directive : string) : bool :=
  String.eqb directive "major" || String.eqb directive "minor"
  || String.eqb directive "patch".

Definition confirm_prompt (fullName : string) : string :=
  "This will FOREVER delete '" ++ fullName ++ "'! Are you sure? [y/N] ".

(** [const [publisher, name] = id.split('.')] *)
Definition split_id (id : string) : value * value :=
  let parts := split "." id in (item parts 0, item parts 1).

Section Library.

(** Library functions the module calls: [JSON.parse], [Buffer#toString]
    and two entry points of the [semver] package. *)
Variable JSON_parse : string -> error + Manifest.
Variable utf8_toString : list byte -> string.
Variable semver_valid : string -> option string.
Variable semver_inc : string -> string -> option string.

Definition zip_step (s : zip_state) (ev : zip_event) : zip_state :=
  match ev with
  | ZipEntry entry =>
      if is_manifest_entry (fileName entry)
      then with_opening ({[entry_id entry]} ∪ opening s)
             (with_end_listener false s)
      else s
  | ZipEnd =>
      if end_listener s
      then settle (inl manifest_not_found) (with_end_listener false s)
      else s
  | ReadStreamCallback id err =>
      if decide (id ∈ opening s)
      then
        let s' := with_opening (opening s ∖ {[id]}) s in
        match err with
        | Some e => settle (inl e) s'
        | None =>
            with_streams
              (<[id := {| buffers := []; on_error := true; on_end := true |}]>
                 (streams s')) s'
        end
      else s
  | StreamData id buffer =>
      match streams s !! id with
      | Some st =>
          with_streams
            (<[id := {| buffers := buffers st ++ [buffer];
                        on_error := on_error st; on_end := on_end st |}]>
               (streams s)) s
      | None => s
      end
  | StreamError id err =>
      match streams s !! id with
      | Some st =>
          if on_error st
          then settle (inl err)
                 (with_streams
                    (<[id := {| buffers := buffers st; on_error := false;
                                on_end := on_end st |}]> (streams s)) s)
          else s
      | None => s
      end
  | StreamEnd id =>
      match streams s !! id with
      | Some st =>
          if on_end st
          then settle (JSON_parse (utf8_toString (concat (buffers st))))
                 (with_streams
                    (<[id := {| buffers := buffers st;
                                on_error := on_error st;
                                on_end := false |}]> (streams s)) s)
          else s
      | None => s
      end
  end.

Definition zip_run (s : zip_state) (evs : list zip_event) : zip_state :=
  fold_left zip_step evs s.

Definition promise_outcome (s : zip_state) : outcome Manifest :=
  match settled s with
  | Some (inr m) => Resolved m
  | Some (inl e) => Rejected e
  | None => Pending
  end.

Definition readManifestFromPackage (env : Env) (packagePath : string)
  : M Manifest :=
  call (EvYauzlOpen packagePath)
    match yauzl_open env packagePath with
    | inl err => Rejected err
    | inr evs => promise_outcome (zip_run zip_init evs)
    end.

Definition _publish (env : Env) (packagePath pat : string) (m : Manifest)
  : M unit :=
  emit (EvGetGalleryAPI pat);;
  emit (EvCreateReadStream packagePath);;
  let fullName := fullName_of m in
  emit (EvLog ("Publishing " ++ fullName ++ "..."));;
  catch
    (extension ←
       catch
         (call (EvGetExtension (publisher m) (name m))
            (getExtension env pat (publisher m) (name m)))
         (fun err => if has_status err 404 then mret None else reject err);
     if match extension with
        | Some ext => has_version ext m
        | None => false
        end
     then
       reject (ErrString
         (fullName ++ " already exists. Version number cannot be the same."))
     else
       catch
         match extension with
         | Some _ =>
             call (EvUpdateExtension packagePath (publisher m) (name m))
               (updateExtension env pat packagePath (publisher m) (name m))
         | None =>
             call (EvCreateExtension packagePath)
               (createExtension env pat packagePath)
         end
         (fun err =>
            reject (if has_status err 409
                    then ErrString (fullName ++ " already exists.")
                    else err));;
       emit (EvLog ("Successfully published " ++ fullName ++ "!")))
    (fun err => reject (explain_invalid_resource err)).

(** [semver.inc] applied to a manifest slot: anything but a string throws
    inside the library, which [inc] turns into [null]. *)
Definition semver_inc_slot (current : value) (release : string)
  : option string :=
  match current with
  | VStr v => semver_inc v release
  | _ => None
  end.

Definition versionBump (env : Env) (cwd version' : option string) : M unit :=
  let cwd := default (process_cwd env) cwd in
  match truthy version' with
  | None => mret tt
  | Some directive =>
      m ← call (EvReadManifest (Some cwd) (Some false))
            (readManifest env (Some cwd) (Some false));
      next ←
        (if is_bump_keyword directive
         then mret (of_nullable (semver_inc_slot (version m) directive))
         else
           match truthy (semver_valid directive) with
           | None => reject (ErrString ("Invalid version " ++ directive))
           | Some updatedVersion => mret (VStr updatedVersion)
           end);
      if strict_neq next (version m)
      then call (EvWriteManifest cwd (set_version m next))
             (writeManifest env cwd (set_version m next))
      else mret tt
  end.

(** The local [promise] of [publish]; [None] is the early return on
    incompatible options. *)
Definition publish_promise (env : Env) (options : IPublishOptions)
  : option (M IPackageResult) :=
  match truthy (opt_packagePath options) with
  | Some path =>
      if is_truthy (opt_version options) then None
      else Some (m ← readManifestFromPackage env path;
                 mret {| manifest := m; packagePath := path |})
  | None =>
      Some (versionBump env (opt_cwd options) (opt_version options);;
            path ← call EvTmpName (tmpName env);
            let packOptions :=
              {| pack_packagePath := path; pack_cwd := opt_cwd options;
                 pack_baseContentUrl := opt_baseContentUrl options;
                 pack_baseImagesUrl := opt_baseImagesUrl options |} in
            call (EvPack packOptions) (pack env packOptions))
  end.

(** The local [patPromise] of [publish]. *)
Definition publish_pat (env : Env) (options : IPublishOptions)
  (m : Manifest) : M string :=
  match truthy (opt_pat options) with
  | Some pat => mret pat
  | None =>
      p ← call (EvGetPublisher (VStr (publisher m)))
            (getPublisher env (VStr (publisher m)));
      mret (publisher_pat p)
  end.

(** The callback chained on [promise]. *)
Definition publish_then (env : Env) (options : IPublishOptions)
  (r : IPackageResult) : M unit :=
  if enableProposedApi (manifest r) then reject proposed_api_error
  else
    pat ← publish_pat env options (manifest r);
    _publish env (packagePath r) pat (manifest r).

Definition not_supported : error :=
  ErrString "Not supported: packagePath and version.".

Definition publish (env : Env) (options : IPublishOptions) : M unit :=
  match publish_promise env options with
  | None => reject not_supported
  | Some promise => promise ≫= publish_then env options
  end.

(** The identity [unpublish] works on. *)
Definition unpublish_identity (env : Env) (options : IPublishOptions)
  : M (value * value) :=
  match truthy (opt_id options) with
  | Some id => mret (split_id id)
  | None =>
      m ← call (EvReadManifest (opt_cwd options) None)
            (readManifest env (opt_cwd options) None);
      mret (VStr (publisher m), VStr (name m))
  end.

(** The local [pat] of [unpublish]. *)
Definition unpublish_pat (env : Env) (options : IPublishOptions)
  (publisher : value) : M string :=
  match truthy (opt_pat options) with
  | Some pat => mret pat
  | None =>
      p ← call (EvGetPublisher publisher) (getPublisher env publisher);
      mret (publisher_pat p)
  end.

(** The callback chained on the identity. *)
Definition unpublish_then (env : Env) (options : IPublishOptions)
  (identity : value * value) : M unit :=
  let '(publisher, name) := identity in
  let fullName := template publisher ++ "." ++ template name in
  pat ← start (unpublish_pat env options publisher);
  answer ← call (EvRead (confirm_prompt fullName))
             (read env (confirm_prompt fullName));
  (if is_yes answer then mret tt else reject (ErrString "Aborted"));;
  pat ← await pat;
  emit (EvGetGalleryAPI pat);;
  call (EvDeleteExtension publisher name)
    (deleteExtension env pat publisher name);;
  emit (EvLog ("Successfully deleted " ++ fullName ++ "!")).

Definition unpublish (env : Env) (options : IPublishOptions) : M unit :=
  unpublish_identity env options ≫= unpublish_then env options.

End Library.

(** ** Vocabulary for statements about event traces *)

(** An entry event the scan reacts to. *)
Definition is_match_event (ev : zip_event) : bool :=
  match ev with
  | ZipEntry entry => is_manifest_entry (fileName entry)
  | _ => false
  end.

Definition is_end_event (ev : zip_event) : bool :=
  match ev with
  | ZipEnd => true
  | _ => false
  end.

(** Events of the read stream opened for entry [id]. *)
Definition concerns (id : nat) (ev : zip_event) : bool :=
  match ev with
  | ReadStreamCallback j _ | StreamData j _ | StreamError j _ | StreamEnd j =>
      Nat.eqb j id
  | ZipEntry _ | ZipEnd => false
  end.

(** A read that succeeds: the stream opens, delivers [chunks] in order and
    ends. *)
Definition successful_read (id : nat) (chunks : list (list byte))
  : list zip_event :=
  (ReadStreamCallback id None :: map (StreamData id) chunks
   ++ [StreamEnd id])%list.

(** No stream but the one of entry [id] is open or being opened. *)
Definition others_idle (id : nat) (s : zip_state) : Prop :=
  forall j, j <> id -> streams s !! j = None /\ j ∉ opening s.

Definition settled_outcome (r : error + Manifest) : outcome Manifest :=
  match r with
  | inr m => Resolved m
  | inl e => Rejected e
  end.

(** What [_publish] does before it hears from the gallery. *)
Definition publish_prelude (packagePath pat : string) (m : Manifest)
  : list event :=
  [EvGetGalleryAPI pat; EvCreateReadStream packagePath;
   EvLog ("Publishing " ++ fullName_of m ++ "...");
   EvGetExtension (publisher m) (name m)].

(** Substring before the first [sep]; the whole string when there is none. *)
Fixpoint before_first (sep : ascii) (s : string) : string :=
  match s with
  | EmptyString => EmptyString
  | String c r =>
      if Ascii.eqb c sep then EmptyString else String c (before_first sep r)
  end.

(** Remainder after the first [sep]; empty when there is none. *)
Fixpoint after_first (sep : ascii) (s : string) : string :=
  match s with
  | EmptyString => EmptyString
  | String c r => if Ascii.eqb c sep then r else after_first sep r
  end.

Fixpoint has_char (sep : ascii) (s : string) : bool :=
  match s with
  | EmptyString => false
  | String c r => Ascii.eqb c sep || has_char sep r
  end.

(** ** Reference instances

    A small stand-in for the [semver] package on plain MAJOR.MINOR.PATCH
    versions, and concrete environments, used to run the model. *)

Module SemverModel.

Definition digit (c : ascii) : option nat :=
  let n := nat_of_ascii c in
  if (48 <=? n)%nat && (n <=? 57)%nat then Some (n - 48)%nat else None.

Fixpoint numeral_from (acc : nat) (s : string) : option nat :=
  match s with
  | EmptyString => Some acc
  | String c r =>
      match digit c with
      | Some d => numeral_from (10 * acc + d)%nat r
      | None => None
      end
  end.

(** A numeric identifier: digits, no leading zero. *)
Definition numeral (s : string) : option nat :=
  match s with
  | EmptyString => None
  | String c (String _ _) =>
      if Ascii.eqb c "0" then None else numeral_from 0 s
  | _ => numeral_from 0 s
  end.

Definition parse (s : string) : option (nat * nat * nat) :=
  match split "." s with
  | [a; b; c] =>
      match numeral a, numeral b, numeral c with
      | Some x, Some y, Some z => Some (x, y, z)
      | _, _, _ => None
      end
  | _ => None
  end.

Fixpoint show_nat_from (fuel n : nat) (acc : string) : string :=
  match fuel with
  | O => acc
  | S f =>
      let acc' := String (ascii_of_nat (48 + n mod 10)) acc in
      if (n / 10 =? 0)%nat then acc' else show_nat_from f (n / 10) acc'
  end.

Definition show_nat (n : nat) : string := show_nat_from (S n) n EmptyString.

Definition show (v : nat * nat * nat) : string :=
  let '(x, y, z) := v in show_nat x ++ "." ++ show_nat y ++ "." ++ show_nat z.

Definition valid (s : string) : option string := option_map show (parse s).

Definition inc (s release : string) : option string :=
  match parse s with
  | Some (x, y, z) =>
      if String.eqb release "major" then Some (show (S x, O, O))
      else if String.eqb release "minor" then Some (show (x, S y, O))
      else if String.eqb release "patch" then Some (show (x, y, S z))
      else None
  | None => None
  end.

End SemverModel.

Module Demo.

Definition quoted (s : string) : string :=
  let q := String (ascii_of_nat 34) EmptyString in q ++ s ++ q.

Definition acme_tool : Manifest :=
  {| publisher := "acme"; name := "tool"; version := VStr "1.0.0";
     enableProposedApi := false |}.

Definition manifest_text_1 : string :=
  "{" ++ quoted "publisher" ++ ":" ++ quoted "acme" ++ ","
      ++ quoted "name" ++ ":".

Definition manifest_text_2 : string :=
  quoted "tool" ++ "," ++ quoted "version" ++ ":" ++ quoted "1.0.0" ++ "}".

(** Stand-ins for [JSON.parse] and [Buffer#toString]: the parser knows the
    one manifest text above. *)
Definition parse (text : string) : error + Manifest :=
  if String.eqb text (manifest_text_1 ++ manifest_text_2) then inr acme_tool
  else inl (ErrObject None "Unexpected token").

Definition toString (bytes : list byte) : string := string_of_list_byte bytes.

Definition chunks : list (list byte) :=
  [list_byte_of_string manifest_text_1; list_byte_of_string manifest_text_2].

Definition entry (id : nat) (fileName : string) : Entry :=
  {| entry_id := id; fileName := fileName |}.

(** An archive without a manifest entry. *)
Definition trace_without_manifest : list zip_event :=
  [ZipEntry (entry 0 "[Content_Types].xml");
   ZipEntry (entry 1 "extension.vsixmanifest");
   ZipEntry (entry 2 "extension/readme.md")].

(** An archive whose second entry is the manifest; the end of the archive is
    signalled while the manifest is still being read. *)
Definition trace_before_manifest : list zip_event :=
  [ZipEntry (entry 0 "extension.vsixmanifest")].

Definition trace_after_manifest : list zip_event :=
  [ReadStreamCallback 1 None;
   ZipEntry (entry 2 "extension/readme.md");
   StreamData 1 (list_byte_of_string manifest_text_1);
   ZipEnd;
   StreamData 1 (list_byte_of_string manifest_text_2);
   StreamEnd 1].

Definition trace_with_manifest : list zip_event :=
  (trace_before_manifest
   ++ ZipEntry (entry 1 "Extension/Package.JSON") :: trace_after_manifest)%list.

Definition published (l : list string) : PublishedExtension :=
  {| versions := map (fun v => {| ev_version := v |}) l |}.

(** An environment in which every collaborator succeeds, but for the four
    answers given as arguments; [m] is the manifest of the working
    directory, which the packager embeds. *)
Definition env_with (m : Manifest) (archive : error + list zip_event)
  (credentials : outcome IPublisher) (answer : outcome string)
  (existing : outcome (option PublishedExtension)) : Env :=
  {| process_cwd := "/work";
     yauzl_open := fun _ => archive;
     readManifest := fun _ _ => Resolved m;
     writeManifest := fun _ _ => Resolved tt;
     tmpName := Resolved "/tmp/a.vsix";
     pack := fun o =>
       Resolved {| manifest := m; packagePath := pack_packagePath o |};
     getPublisher := fun _ => credentials;
     read := fun _ => answer;
     getExtension := fun _ _ _ => existing;
     createExtension := fun _ _ => Resolved tt;
     updateExtension := fun _ _ _ _ => Resolved tt;
     deleteExtension := fun _ _ _ => Resolved tt |}.

Definition token : outcome IPublisher :=
  Resolved {| publisher_pat := "token" |}.

(** The gallery knows acme.tool in versions 0.9.0 and 1.0.0; the user
    answers [answer]. *)
Definition env_answering (answer : string) : Env :=
  env_with acme_tool (inr trace_with_manifest) token (Resolved answer)
    (Resolved (Some (published ["0.9.0"; "1.0.0"]))).

Definition env : Env := env_answering "y".

(** The gallery answers the query with [existing]. *)
Definition env_gallery (existing : outcome (option PublishedExtension))
  : Env :=
  env_with acme_tool (inr trace_with_manifest) token (Resolved "y") existing.

Definition env_without_manifest : Env :=
  env_with acme_tool (inr (trace_without_manifest ++ [ZipEnd])%list) token
    (Resolved "y") (Resolved None).

(** The working directory holds manifest [m]. *)
Definition env_workdir (m : Manifest) : Env :=
  env_with m (inr trace_with_manifest) token (Resolved "y") (Resolved None).

Definition proposed_tool : Manifest :=
  {| publisher := "acme"; name := "tool"; version := VStr "1.0.0";
     enableProposedApi := true |}.

Definition unversioned_tool : Manifest :=
  {| publisher := "acme"; name := "tool"; version := VStr "latest";
     enableProposedApi := false |}.

Definition no_options : IPublishOptions :=
  {| opt_packagePath := None; opt_version := None; opt_cwd := None;
     opt_pat := None; opt_baseContentUrl := None; opt_baseImagesUrl := None;
     opt_id := None |}.

Definition with_id (id : string) : IPublishOptions :=
  {| opt_packagePath := None; opt_version := None; opt_cwd := None;
     opt_pat := None; opt_baseContentUrl := None; opt_baseImagesUrl := None;
     opt_id := Some id |}.

Definition package_and_version : IPublishOptions :=
  {| opt_packagePath := Some "tool.vsix"; opt_version := Some "minor";
     opt_cwd := None; opt_pat := None; opt_baseContentUrl := None;
     opt_baseImagesUrl := None; opt_id := None |}.

End Demo.

(** ** Listing

    [list] needs two more collaborators and the gallery's view of an
    extension with its name and owner. *)

Inductive ExtensionQueryFilterType : Type := InstallationTarget.
Inductive PagingDirection : Type := Forward.
Inductive SortByType : Type := Relevance.
Inductive SortOrderType : Type := DefaultOrder.
Inductive ExtensionQueryFlags : Type :=
  | IncludeVersions
  | IncludeLatestVersionOnly
  | IncludeVersionProperties.

Record QueryCriterion : Type := {
  filterType : ExtensionQueryFilterType;
  criterion_value : string
}.

Record QueryFilter : Type := {
  criteria : list QueryCriterion;
  direction : PagingDirection;
  pageNumber : Z;
  pageSize : Z;
  pagingToken : option string;
  sortBy : SortByType;
  sortOrder : SortOrderType
}.

(** [flags] is the set of flags or-ed together. *)
Record ExtensionQuery : Type := {
  filters : list QueryFilter;
  flags : list ExtensionQueryFlags;
  assetTypes : list string
}.

(** A published extension as the query returns it: its version records, its
    name and its publisher's name. *)
Record GalleryExtension : Type := {
  extension : PublishedExtension;
  extensionName : string;
  publisherName : string
}.

Record QueryResultPage : Type := { extensions : list GalleryExtension }.

Record ExtensionQueryResult : Type := { results : list QueryResultPage }.

(** [validatePublisher] (from [./validation]) throws or returns;
    [queryExtensions] is a method of the gallery client and takes the token;
    [type_error] is the [TypeError] the engine raises when the named
    property is read from [undefined]. *)
Record ListEnv : Type := {
  base_env : Env;
  validatePublisher : string -> option error;
  queryExtensions : string -> ExtensionQuery -> outcome ExtensionQueryResult;
  type_error : string -> error
}.

(** A function that is not a promise chain throws or returns. *)
Inductive thrown (A : Type) : Type :=
  | Throws (e : error)
  | Returns (a : A).
Arguments Throws {A} e.
Arguments Returns {A} a.

(** The calls of [list]: those of [event], and the query. *)
Definition list_call : Type := (event + ExtensionQuery)%type.

Definition L (A : Type) : Type := (list list_call * outcome A)%type.

#[export] Instance L_ret : MRet L := fun A a => ([], Resolved a).

#[export] Instance L_bind : MBind L := fun A B f m =>
  match m with
  | (t, Resolved a) => let '(t', r) := f a in ((t ++ t')%list, r)
  | (t, Rejected e) => (t, Rejected e)
  | (t, Pending) => (t, Pending)
  end.

Definition lift {A : Type} (m : M A) : L A := (map inl (fst m), snd m).

Definition list_query : ExtensionQuery :=
  {| filters :=
       [{| criteria := [{| filterType := InstallationTarget;
                           criterion_value := "Microsoft.VisualStudio.Code" |}];
           direction := Forward; pageNumber := 0; pageSize := 1000;
           pagingToken := None; sortBy := Relevance;
           sortOrder := DefaultOrder |}];
     flags := [IncludeLatestVersionOnly; IncludeVersionProperties];
     assetTypes := [] |}.

(** The line printed for one extension; reading [version] from a missing
    first version record throws. *)
Definition list_line (lenv : ListEnv) (e : GalleryExtension) : M unit :=
  match versions (extension e) with
  | [] => reject (type_error lenv "version")
  | v :: _ => emit (EvLog (extensionName e ++ " @ " ++ ev_version v))
  end.

(** [es.forEach(e => console.log(...))] *)
Fixpoint list_forEach (lenv : ListEnv) (es : list GalleryExtension)
  : M unit :=
  match es with
  | [] => mret tt
  | e :: rest => list_line lenv e;; list_forEach lenv rest
  end.

(** [list] of the source. *)
Definition list_ (lenv : ListEnv) (publisher : string) : thrown (L unit) :=
  match validatePublisher lenv publisher with
  | Some e => Throws e
  | None =>
      Returns
        (p ← lift (call (EvGetPublisher (VStr publisher))
                     (getPublisher (base_env lenv) (VStr publisher)));
         pat ← mret (publisher_pat p);
         lift (emit (EvGetGalleryAPI pat));;
         result ← ([inr list_query], queryExtensions lenv pat list_query);
         match results result with
         | [] => ([], Rejected (type_error lenv "extensions"))
         | page :: _ =>
             lift (list_forEach lenv
                     (List.filter
                        (fun e => String.eqb (publisherName e) publisher)
                        (extensions page)))
         end)
  end.

(** ** More vocabulary for statements *)

(** The stream of entry [id] is the only one, is open with both listeners,
    and has delivered [bufs]; the promise is pending. *)
Definition reading (id : nat) (bufs : list (list byte)) (s : zip_state)
  : Prop :=
  end_listener s = false /\ others_idle id s /\ settled s = None
  /\ streams s !! id
     = Some {| buffers := bufs; on_error := true; on_end := true |}.

(** The stream of entry [id] has been requested and nothing else. *)
Definition requested (id : nat) (s : zip_state) : Prop :=
  end_listener s = false /\ others_idle id s /\ settled s = None
  /\ id ∈ opening s.

(** Calls on the working directory, the temporary file and the packager. *)
Definition is_build_call (ev : event) : bool :=
  match ev with
  | EvReadManifest _ _ | EvWriteManifest _ _ | EvTmpName | EvPack _ => true
  | _ => false
  end.

Definition is_write (ev : event) : bool :=
  match ev with
  | EvWriteManifest _ _ => true
  | _ => false
  end.

Definition success_log (m : Manifest) : event :=
  EvLog ("Successfully published " ++ fullName_of m ++ "!").

(** The query of [_publish] found nothing and the create transfer was
    rejected with [err], or it found an extension without the manifest's
    version and the update transfer was rejected with [err]. *)
Definition transfer_rejected (env : Env) (packagePath pat : string)
  (m : Manifest) (err : error) : Prop :=
  let q := getExtension env pat (publisher m) (name m) in
  ((q = Resolved None \/ exists e, q = Rejected e /\ has_status e 404 = true)
   /\ createExtension env pat packagePath = Rejected err)
  \/ (exists ext,
        q = Resolved (Some ext) /\ has_version ext m = false
        /\ updateExtension env pat packagePath (publisher m) (name m)
           = Rejected err).

Definition is_manifest_call (ev : event) : bool :=
  match ev with
  | EvReadManifest _ _ | EvWriteManifest _ _ => true
  | _ => false
  end.

Definition is_query (ev : event) : bool :=
  match ev with
  | EvGetExtension _ _ => true
  | _ => false
  end.

(** The calls that name an archive do so with [path]. *)
Definition uses_archive (path : string) (ev : event) : bool :=
  match ev with
  | EvYauzlOpen p | EvCreateReadStream p | EvCreateExtension p
  | EvUpdateExtension p _ _ => String.eqb p path
  | _ => true
  end.

(** The gallery clients are built from [token]. *)
Definition uses_token (token : string) (ev : event) : bool :=
  match ev with
  | EvGetGalleryAPI p => String.eqb p token
  | _ => true
  end.

(** Calls that resolve the manifest and the archive. *)
Definition is_source_call (ev : event) : bool :=
  match ev with
  | EvYauzlOpen _ => true
  | _ => is_build_call ev
  end.

(** The version [list] prints for an extension that has one. *)
Definition first_version (e : GalleryExtension) : string :=
  match versions (extension e) with
  | v :: _ => ev_version v
  | [] => EmptyString
  end.

Definition list_log (e : GalleryExtension) : event :=
  EvLog (extensionName e ++ " @ " ++ first_version e).

(** What [list] does before it prints. *)
Definition list_prelude (publisher pat : string) : list list_call :=
  [inl (EvGetPublisher (VStr publisher)); inl (EvGetGalleryAPI pat);
   inr list_query].

(** ** More reference instances *)

Module DemoMore.

(** A stand-in parser that records the text it is given as the publisher. *)
Definition parse_tag (text : string) : error + Manifest :=
  inr {| publisher := text; name := "tool"; version := VStr "1.0.0";
         enableProposedApi := false |}.

Definition disk_error : error := ErrObject None "EIO: i/o error, read".

Definition bytes (text : string) : list byte := list_byte_of_string text.

(** The stream of the manifest entry cannot be opened. *)
Definition trace_unreadable_entry : list zip_event :=
  [ReadStreamCallback 1 (Some disk_error); ZipEnd].

(** The stream of the manifest entry fails after a first chunk. *)
Definition trace_broken_stream : list zip_event :=
  [ReadStreamCallback 1 None; StreamData 1 (bytes "{");
   ZipEntry (Demo.entry 2 "extension/readme.md");
   StreamError 1 disk_error; StreamData 1 (bytes "}"); StreamEnd 1; ZipEnd].

(** Two manifest entries; the stream of the second one ends first. *)
Definition trace_two_manifests : list zip_event :=
  [ZipEntry (Demo.entry 1 "extension/package.json");
   ZipEntry (Demo.entry 2 "Extension/Package.json");
   ZipEnd;
   ReadStreamCallback 1 None; ReadStreamCallback 2 None;
   StreamData 1 (bytes "first"); StreamData 2 (bytes "second")].

Definition env_of (archive : error + list zip_event)
  (workdir : outcome Manifest) (credentials : outcome IPublisher)
  (answer : outcome string) (existing : outcome (option PublishedExtension))
  (transfer : outcome unit) : Env :=
  {| process_cwd := "/work";
     yauzl_open := fun _ => archive;
     readManifest := fun _ _ => workdir;
     writeManifest := fun _ _ => Resolved tt;
     tmpName := Resolved "/tmp/a.vsix";
     pack := fun o =>
       Resolved {| manifest := Demo.acme_tool;
                   packagePath := pack_packagePath o |};
     getPublisher := fun _ => credentials;
     read := fun _ => answer;
     getExtension := fun _ _ _ => existing;
     createExtension := fun _ _ => transfer;
     updateExtension := fun _ _ _ _ => transfer;
     deleteExtension := fun _ _ _ => Resolved tt |}.

Definition env_archive (events : list zip_event) : Env :=
  env_of (inr events) (Resolved Demo.acme_tool) Demo.token (Resolved "y")
    (Resolved None) (Resolved tt).

(** The gallery knows nothing of the extension and answers the transfer
    with [transfer]. *)
Definition env_transfer (transfer : outcome unit) : Env :=
  env_of (inr Demo.trace_with_manifest) (Resolved Demo.acme_tool) Demo.token
    (Resolved "y") (Rejected (ErrObject (Some 404%Z) "Not Found")) transfer.

Definition unknown_publisher : error := ErrString "Unknown publisher: acme".

Definition env_without_credentials : Env :=
  env_of (inr Demo.trace_with_manifest) (Resolved Demo.acme_tool)
    (Rejected unknown_publisher) (Resolved "y") (Resolved None) (Resolved tt).

Definition manifest_missing : error :=
  ErrString "Extension manifest not found: /work/package.json".

Definition env_without_workdir_manifest : Env :=
  env_of (inr Demo.trace_with_manifest) (Rejected manifest_missing)
    Demo.token (Resolved "y") (Resolved None) (Resolved tt).

Definition options (package version pat id : option string)
  : IPublishOptions :=
  {| opt_packagePath := package; opt_version := version; opt_cwd := None;
     opt_pat := pat; opt_baseContentUrl := None; opt_baseImagesUrl := None;
     opt_id := id |}.

Definition listed (owner name : string) (l : list string)
  : GalleryExtension :=
  {| extension := Demo.published l; extensionName := name;
     publisherName := owner |}.

(** The gallery answers the query with one page holding [es]. *)
Definition list_env (es : list GalleryExtension) : ListEnv :=
  {| base_env := Demo.env;
     validatePublisher := fun _ => None;
     queryExtensions := fun _ _ =>
       Resolved {| results := [{| extensions := es |}] |};
     type_error := fun property =>
       ErrObject None ("Cannot read property '" ++ property ++ "' of undefined") |}.

End DemoMore.

(** The query of [_publish] found nothing and the create transfer
    resolved, or it found an extension without the manifest's version and
    the update transfer resolved. *)
Definition transfer_resolved (env : Env) (packagePath pat : string)
  (m : Manifest) : Prop :=
  let q := getExtension env pat (publisher m) (name m) in
  ((q = Resolved None \/ exists e, q = Rejected e /\ has_status e 404 = true)
   /\ createExtension env pat packagePath = Resolved tt)
  \/ (exists ext,
        q = Resolved (Some ext) /\ has_version ext m = false
        /\ updateExtension env pat packagePath (publisher m) (name m)
           = Resolved tt).

(** ** The [semver] package

    [semver] is a dependency, not part of the repository.  Its [inc] is
    modelled after the package's documentation ("return the version
    incremented by the release type, or null if it's not valid") and the way
    the package does it: it builds a [SemVer] object from the string,
    increments it, returns its [version], and answers [null] when any of
    this throws.  The constructor, the increment and the rendering are
    parameters; [None] stands for a throw. *)

Section SemverPackage.

Variable SemVer : Type.
Variable SemVer_new : string -> option SemVer.
Variable SemVer_inc : SemVer -> string -> option SemVer.
Variable SemVer_version : SemVer -> string.

Definition semver_package_inc (v release : string) : option string :=
  match SemVer_new v with
  | Some parsed => option_map SemVer_version (SemVer_inc parsed release)
  | None => None
  end.

End SemverPackage.

Module DemoSemver.

(** The increment of the stand-in: it throws on an unknown release type. *)
Definition bump (v : nat * nat * nat) (release : string)
  : option (nat * nat * nat) :=
  let '(x, y, z) := v in
  if String.eqb release "major" then Some (S x, O, O)
  else if String.eqb release "minor" then Some (x, S y, O)
  else if String.eqb release "patch" then Some (x, y, S z)
  else None.

(** A stand-in for [semver.valid] that, like the package, accepts a leading
    "v" and drops it. *)
Definition valid (s : string) : option string :=
  match s with
  | String c r => if Ascii.eqb c "v" then SemverModel.valid r
                  else SemverModel.valid s
  | EmptyString => None
  end.

End DemoSemver.

(** * Properties *)

(** Expose a chain as nested matches on the oracles' answers. *)
Ltac chain :=
  unfold emit, call, catch, reject, start, await, mbind, M_bind, mret, M_ret.

(** ** The archive scan *)

Section ArchiveScan.

Variable JSON_parse : string -> error + Manifest.
Variable utf8_toString : list byte -> string.

Local Abbreviation step := (zip_step JSON_parse utf8_toString).
Local Abbreviation run := (zip_run JSON_parse utf8_toString).

Lemma run_cons (s : zip_state) (ev : zip_event) (evs : list zip_event) :
  run s (ev :: evs) = run (step s ev) evs.
Proof. reflexivity. Qed.

Lemma run_app (s : zip_state) (evs evs' : list zip_event) :
  run s (evs ++ evs')%list = run (run s evs) evs'.
Proof. unfold zip_run. apply fold_left_app. Qed.

(** Before any manifest entry and before the end of the archive, no listener
    reacts: the state is the initial one. *)
Lemma step_init_unrelated (ev : zip_event) :
  is_match_event ev = false -> is_end_event ev = false ->
  step zip_init ev = zip_init.
Proof.
  destruct ev as [entry| |id err|id buffer|id err|id]; cbn; intros Hm He;
    try discriminate; try reflexivity.
  now rewrite Hm.
Qed.

Lemma run_init_unrelated (evs : list zip_event) :
  forallb (fun ev => negb (is_match_event ev) && negb (is_end_event ev)) evs
  = true ->
  run zip_init evs = zip_init.
Proof.
  induction evs as [|ev evs IH]; cbn [forallb]; intros H; [reflexivity|].
  apply andb_true_iff in H as [Hev Hevs].
  apply andb_true_iff in Hev as [Hm He].
  rewrite run_cons, step_init_unrelated; auto; now apply negb_true_iff.
Qed.

(** A settled promise stays as it is. *)
Lemma settle_settled (r r' : error + Manifest) (s : zip_state) :
  settled s = Some r -> settled (settle r' s) = Some r.
Proof. unfold settle. intros H. now rewrite H. Qed.

Lemma step_settled (s : zip_state) (ev : zip_event) (r : error + Manifest) :
  settled s = Some r -> settled (step s ev) = Some r.
Proof.
  intros H.
  destruct ev as [entry| |id err|id buffer|id err|id]; cbn.
  - now destruct (is_manifest_entry _).
  - destruct (end_listener s); [|assumption]. now apply settle_settled.
  - destruct (decide _); [|assumption].
    destruct err; [now apply settle_settled | assumption].
  - now destruct (streams s !! id).
  - destruct (streams s !! id) as [st|]; [|assumption].
    destruct (on_error st); [|assumption]. now apply settle_settled.
  - destruct (streams s !! id) as [st|]; [|assumption].
    destruct (on_end st); [|assumption]. now apply settle_settled.
Qed.

Lemma run_settled (evs : list zip_event) (s : zip_state)
  (r : error + Manifest) :
  settled s = Some r -> settled (run s evs) = Some r.
Proof.
  revert s. induction evs as [|ev evs IH]; intros s H; [assumption|].
  rewrite run_cons. apply IH. now apply step_settled.
Qed.

(** Nothing re-registers the end-of-archive listener. *)
Lemma end_listener_settle (r : error + Manifest) (s : zip_state) :
  end_listener (settle r s) = end_listener s.
Proof. unfold settle. now destruct (settled s). Qed.

Lemma step_end_listener_off (s : zip_state) (ev : zip_event) :
  end_listener s = false -> end_listener (step s ev) = false.
Proof.
  intros H.
  destruct ev as [entry| |id err|id buffer|id err|id]; cbn.
  - now destruct (is_manifest_entry _).
  - now rewrite H.
  - destruct (decide _); [|assumption].
    destruct err; [now rewrite end_listener_settle | assumption].
  - now destruct (streams s !! id).
  - destruct (streams s !! id) as [st|]; [|assumption].
    destruct (on_error st); [|assumption]. now rewrite end_listener_settle.
  - destruct (streams s !! id) as [st|]; [|assumption].
    destruct (on_end st); [|assumption]. now rewrite end_listener_settle.
Qed.

Lemma run_end_listener_off (evs : list zip_event) (s : zip_state) :
  end_listener s = false -> end_listener (run s evs) = false.
Proof.
  revert s. induction evs as [|ev evs IH]; intros s H; [assumption|].
  rewrite run_cons. apply IH. now apply step_end_listener_off.
Qed.

Lemma step_match_end_listener (s : zip_state) (entry : Entry) :
  is_manifest_entry (fileName entry) = true ->
  end_listener (step s (ZipEntry entry)) = false.
Proof. intros H. cbn. now rewrite H. Qed.

Lemma step_end_ignored (s : zip_state) :
  end_listener s = false -> step s ZipEnd = s.
Proof. intros H. cbn. now rewrite H. Qed.


(** While the stream of entry [id] is the only one around and the
    end-of-archive listener is gone, every other event is ignored. *)
Lemma step_ignored (id : nat) (s : zip_state) (ev : zip_event) :
  concerns id ev = false -> is_match_event ev = false ->
  end_listener s = false -> others_idle id s ->
  step s ev = s.
Proof.
  intros Hc Hm He Hidle.
  destruct ev as [entry| |j err|j buffer|j err|j]; cbn in *.
  - now rewrite Hm.
  - now rewrite He.
  - apply Nat.eqb_neq in Hc. destruct (Hidle j Hc) as [_ Hj].
    now destruct (decide (j ∈ opening s)).
  - apply Nat.eqb_neq in Hc. destruct (Hidle j Hc) as [Hj _]. now rewrite Hj.
  - apply Nat.eqb_neq in Hc. destruct (Hidle j Hc) as [Hj _]. now rewrite Hj.
  - apply Nat.eqb_neq in Hc. destruct (Hidle j Hc) as [Hj _]. now rewrite Hj.
Qed.

(** Third phase: the stream is open and has delivered [bufs] so far. *)
Lemma run_open_stream (id : nat) (evs : list zip_event) :
  forall (s : zip_state) (bufs chunks : list (list byte)) (err_l : bool),
  forallb (fun ev => negb (is_match_event ev)) evs = true ->
  List.filter (concerns id) evs
  = (map (StreamData id) chunks ++ [StreamEnd id])%list ->
  end_listener s = false -> others_idle id s -> settled s = None ->
  streams s !! id
  = Some {| buffers := bufs; on_error := err_l; on_end := true |} ->
  settled (run s evs)
  = Some (JSON_parse (utf8_toString (concat (bufs ++ chunks)%list))).
Proof.
  induction evs as [|ev evs IH]; intros s bufs chunks err_l Hun Hf He Hidle Hs Hst.
  - destruct chunks; discriminate.
  - cbn [forallb] in Hun. apply andb_true_iff in Hun as [Hm Hun].
    apply negb_true_iff in Hm. rewrite run_cons.
    cbn [List.filter] in Hf. destruct (concerns id ev) eqn:Hc.
    + destruct chunks as [|c chunks]; cbn in Hf; injection Hf as Hev Hf; subst ev.
      * apply run_settled. cbn. rewrite Hst. cbn. unfold settle. cbn.
        rewrite Hs. cbn. now rewrite app_nil_r.
      * replace (bufs ++ c :: chunks)%list
          with ((bufs ++ [c]) ++ chunks)%list by now rewrite <- app_assoc.
        apply (IH _ _ _ err_l); auto.
        -- cbn. now rewrite Hst.
        -- intros j Hj. cbn. rewrite Hst. cbn.
           destruct (Hidle j Hj) as [H1 H2]. split; [|assumption].
           now rewrite lookup_insert_ne.
        -- cbn. now rewrite Hst.
        -- cbn. rewrite Hst. cbn. now rewrite lookup_insert_eq.
    + rewrite (step_ignored id); auto. now apply (IH _ _ _ err_l).
Qed.

(** Second phase: the entry matched and its stream is being opened. *)
Lemma run_opening_stream (id : nat) (evs : list zip_event) :
  forall (s : zip_state) (chunks : list (list byte)),
  forallb (fun ev => negb (is_match_event ev)) evs = true ->
  List.filter (concerns id) evs = successful_read id chunks ->
  end_listener s = false -> others_idle id s -> settled s = None ->
  id ∈ opening s ->
  settled (run s evs)
  = Some (JSON_parse (utf8_toString (concat chunks))).
Proof.
  induction evs as [|ev evs IH]; intros s chunks Hun Hf He Hidle Hs Hop.
  - discriminate.
  - cbn [forallb] in Hun. apply andb_true_iff in Hun as [Hm Hun].
    apply negb_true_iff in Hm. rewrite run_cons.
    cbn [List.filter] in Hf. destruct (concerns id ev) eqn:Hc.
    + unfold successful_read in Hf. injection Hf as Hev Hf. subst ev.
      apply (run_open_stream id evs _ [] chunks true); auto.
      * cbn. now destruct (decide (id ∈ opening s)).
      * intros j Hj. cbn. destruct (decide (id ∈ opening s)); [|done].
        cbn. destruct (Hidle j Hj) as [H1 H2]. split.
        -- now rewrite lookup_insert_ne.
        -- rewrite elem_of_difference. tauto.
      * cbn. now destruct (decide (id ∈ opening s)).
      * cbn. destruct (decide (id ∈ opening s)); [|done].
        cbn. now rewrite lookup_insert_eq.
    + rewrite (step_ignored id); auto.
Qed.


Lemma promise_outcome_settled (s : zip_state) (r : error + Manifest) :
  settled s = Some r -> promise_outcome s = settled_outcome r.
Proof. unfold promise_outcome. intros H. now rewrite H. Qed.

(** C3.  Let an archive be opened and let [pre] be the events delivered
    before the end of the archive, none of them an entry named
    extension/package.json up to case.  Then the promise is still pending
    after [pre]; once the end of the archive is signalled it is rejected with
    "Manifest not found", whatever follows, and that is the result of
    [readManifestFromPackage].  Once a matching entry has been delivered, a
    later end-of-archive signal changes nothing. *)
Theorem C3_manifest_not_found_only_at_end
  (env : Env) (path : string) (pre post : list zip_event) :
  forallb (fun ev => negb (is_match_event ev) && negb (is_end_event ev)) pre
  = true ->
  yauzl_open env path = inr (pre ++ ZipEnd :: post)%list ->
  promise_outcome (run zip_init pre) = Pending
  /\ promise_outcome (run zip_init (pre ++ [ZipEnd])) = Rejected manifest_not_found
  /\ readManifestFromPackage JSON_parse utf8_toString env path
     = ([EvYauzlOpen path], Rejected manifest_not_found)
  /\ (forall (entry : Entry) (mid : list zip_event),
        is_manifest_entry (fileName entry) = true ->
        let s := run zip_init (pre ++ ZipEntry entry :: mid) in
        step s ZipEnd = s).
Proof.
  intros Hpre Hopen.
  assert (Hend : settled (step zip_init ZipEnd) = Some (inl manifest_not_found))
    by reflexivity.
  repeat split.
  - now rewrite run_init_unrelated.
  - rewrite run_app, run_init_unrelated by assumption. reflexivity.
  - unfold readManifestFromPackage, call. rewrite Hopen.
    rewrite run_app, run_init_unrelated, run_cons by assumption.
    now rewrite (promise_outcome_settled _ (inl manifest_not_found))
      by now apply run_settled.
  - intros entry mid Hm s. apply step_end_ignored. subst s.
    rewrite run_app, run_cons. apply run_end_listener_off.
    now apply step_match_end_listener.
Qed.

(** C4.  Let an archive be opened whose events are [pre], then an entry
    named extension/package.json up to case, then [post], where no other
    entry matches, the archive does not end before the entry, and the
    entry's stream opens, delivers [chunks] in order and ends, interleaved in
    any way with the remaining entries and the end of the archive.  Then
    [readManifestFromPackage] settles with [JSON.parse] of the UTF-8 text of
    the concatenated chunks: resolved with the parsed manifest, or rejected
    with the parse error. *)
Theorem C4_manifest_from_matching_entry
  (env : Env) (path : string) (pre post : list zip_event) (entry : Entry)
  (chunks : list (list byte)) :
  yauzl_open env path = inr (pre ++ ZipEntry entry :: post)%list ->
  is_manifest_entry (fileName entry) = true ->
  forallb (fun ev => negb (is_match_event ev) && negb (is_end_event ev)) pre
  = true ->
  forallb (fun ev => negb (is_match_event ev)) post = true ->
  List.filter (concerns (entry_id entry)) post
  = successful_read (entry_id entry) chunks ->
  readManifestFromPackage JSON_parse utf8_toString env path
  = ([EvYauzlOpen path],
     settled_outcome (JSON_parse (utf8_toString (concat chunks)))).
Proof.
  intros Hopen Hm Hpre Hpost Hread.
  unfold readManifestFromPackage, call. rewrite Hopen.
  rewrite run_app, run_init_unrelated, run_cons by assumption.
  f_equal. apply promise_outcome_settled.
  apply (run_opening_stream (entry_id entry)); auto.
  - now apply step_match_end_listener.
  - intros j Hj. cbn. rewrite Hm. cbn. split; [apply lookup_empty|].
    rewrite elem_of_union, elem_of_singleton, elem_of_empty. tauto.
  - cbn. now rewrite Hm.
  - cbn. rewrite Hm. cbn. apply elem_of_union_l. now apply elem_of_singleton.
Qed.

End ArchiveScan.

(** ** Promise chains *)

Lemma explain_invalid_resource_other (err : error) :
  match err with
  | ErrObject _ message => includes "Invalid Resource" message = false
  | ErrString _ => True
  end ->
  explain_invalid_resource err = err.
Proof. destruct err as [s|code message]; cbn; intros H; now rewrite ?H. Qed.

Lemma explain_invalid_resource_status (err : error) (code : Z) :
  has_status (explain_invalid_resource err) code = has_status err code.
Proof.
  destruct err as [s|c message]; cbn; [reflexivity|].
  now destruct (includes _ message).
Qed.

Lemma has_version_true (ext : PublishedExtension) (m : Manifest) :
  has_version ext m = true <->
  exists r, In r (versions ext) /\ VStr (ev_version r) = version m.
Proof.
  unfold has_version. rewrite existsb_exists. split.
  - intros (r & Hin & Heq). exists r. split; [assumption|].
    unfold strict_eq_str in Heq. destruct (version m); try discriminate.
    apply String.eqb_eq in Heq. now subst.
  - intros (r & Hin & Heq). exists r. split; [assumption|].
    rewrite <- Heq. cbn. apply String.eqb_refl.
Qed.

Section Publish.

Variable env : Env.
Variables packagePath pat : string.
Variable m : Manifest.

(** C1.  When the gallery answers the query with an existing extension one of
    whose version records carries exactly the manifest's version [v],
    [_publish] is rejected with the message
    "publisher.name@v already exists. Version number cannot be the same."
    after the query alone: neither transfer call is issued. *)
Theorem C1_duplicate_version_rejected
  (ext : PublishedExtension) (r : ExtensionVersion) (v : string) :
  getExtension env pat (publisher m) (name m) = Resolved (Some ext) ->
  In r (versions ext) ->
  ev_version r = v ->
  version m = VStr v ->
  _publish env packagePath pat m
  = (publish_prelude packagePath pat m,
     Rejected (ErrString
       ((publisher m ++ "." ++ name m ++ "@" ++ v)
        ++ " already exists. Version number cannot be the same.")))
  /\ existsb is_transfer (fst (_publish env packagePath pat m)) = false.
Proof.
  intros Hq Hin Hr Hv.
  assert (Hdup : has_version ext m = true).
  { apply has_version_true. exists r. split; [assumption|]. congruence. }
  assert (Hrun : _publish env packagePath pat m
                 = (publish_prelude packagePath pat m,
                    Rejected (ErrString
                      (fullName_of m
                       ++ " already exists. Version number cannot be the same.")))).
  { unfold _publish. chain. rewrite Hq, Hdup. reflexivity. }
  rewrite Hrun. unfold fullName_of. rewrite Hv. split; reflexivity.
Qed.

(** C2.  The gallery calls of [_publish] after the query:
    - a query rejected with status 404 is followed by a create transfer;
    - a query rejected otherwise rejects [_publish] with that error (its
      message extended by the token hint when it mentions
      "Invalid Resource"), without any transfer;
    - an existing extension without the manifest's version is followed by an
      update transfer. *)
Theorem C2_query_decides_transfer :
  let query := getExtension env pat (publisher m) (name m) in
  let calls := List.filter is_network (fst (_publish env packagePath pat m)) in
  (forall err, query = Rejected err -> has_status err 404 = true ->
     calls = [EvGetExtension (publisher m) (name m);
              EvCreateExtension packagePath])
  /\ (forall err, query = Rejected err -> has_status err 404 = false ->
        _publish env packagePath pat m
        = (publish_prelude packagePath pat m, Rejected (explain_invalid_resource err))
        /\ has_status (explain_invalid_resource err) 404 = false
        /\ (match err with
            | ErrObject _ message => includes "Invalid Resource" message = false
            | ErrString _ => True
            end -> explain_invalid_resource err = err))
  /\ (forall ext, query = Resolved (Some ext) -> has_version ext m = false ->
        calls = [EvGetExtension (publisher m) (name m);
                 EvUpdateExtension packagePath (publisher m) (name m)]).
Proof.
  cbn zeta. split; [|split].
  - intros err Hq H404. unfold _publish. chain. rewrite Hq, H404.
    now destruct (createExtension env pat packagePath) as [[]|e|].
  - intros err Hq H404. repeat split.
    + unfold _publish. chain. rewrite Hq, H404. reflexivity.
    + now rewrite explain_invalid_resource_status.
    + apply explain_invalid_resource_other.
  - intros ext Hq Hv. unfold _publish. chain. rewrite Hq, Hv.
    now destruct (updateExtension env pat packagePath (publisher m) (name m))
      as [[]|e|].
Qed.

End Publish.

(** ** Source resolution and the publish entry point *)

Section PublishEntry.

Variable JSON_parse : string -> error + Manifest.
Variable utf8_toString : list byte -> string.
Variable semver_valid : string -> option string.
Variable semver_inc : string -> string -> option string.

Local Abbreviation readManifestFromPackage' :=
  (readManifestFromPackage JSON_parse utf8_toString).
Local Abbreviation versionBump' := (versionBump semver_valid semver_inc).
Local Abbreviation publish_promise' :=
  (publish_promise JSON_parse utf8_toString semver_valid semver_inc).
Local Abbreviation publish' :=
  (publish JSON_parse utf8_toString semver_valid semver_inc).

Variable env : Env.

Lemma versionBump_offline (cwd directive : option string) :
  existsb is_network (fst (versionBump' env cwd directive)) = false.
Proof.
  unfold versionBump. destruct (truthy directive) as [d|]; [|reflexivity].
  chain. destruct (readManifest env _ _) as [m| |]; try reflexivity.
  destruct (is_bump_keyword d).
  - now destruct (strict_neq _ _).
  - destruct (truthy (semver_valid d)); [|reflexivity].
    now destruct (strict_neq _ _).
Qed.

(** Resolving the manifest and the archive talks to the file system and the
    packager only. *)
Lemma publish_promise_offline (options : IPublishOptions)
  (promise : M IPackageResult) :
  publish_promise' env options = Some promise ->
  existsb is_network (fst promise) = false.
Proof.
  unfold publish_promise. destruct (truthy (opt_packagePath options)) as [p|].
  - destruct (is_truthy _); [discriminate|]. intros [= <-].
    unfold readManifestFromPackage. chain.
    destruct (yauzl_open env p) as [e|evs]; [reflexivity|].
    now destruct (promise_outcome _).
  - intros [= <-].
    pose proof (versionBump_offline (opt_cwd options) (opt_version options))
      as Hb.
    unfold mbind at 1. unfold M_bind.
    destruct (versionBump' env _ _) as [t [[]|e|]]; cbn [fst] in *;
      try assumption.
    chain. destruct (tmpName env) as [path|e|]; cbn [fst].
    + rewrite existsb_app, Hb. reflexivity.
    + rewrite existsb_app, Hb. reflexivity.
    + rewrite existsb_app, Hb. reflexivity.
Qed.

(** C5.  When the manifest the publish operation resolved declares
    [enableProposedApi], [publish] is rejected with the proposed-API error
    and has issued the calls of the resolution only, none of which goes to
    the gallery: no query, no transfer. *)
Theorem C5_proposed_api_rejected_offline
  (options : IPublishOptions) (t : list event) (r : IPackageResult) :
  publish_promise' env options = Some (t, Resolved r) ->
  enableProposedApi (manifest r) = true ->
  publish' env options = (t, Rejected proposed_api_error)
  /\ existsb is_network (fst (publish' env options)) = false.
Proof.
  intros Hp Hflag.
  assert (Hrun : publish' env options = (t, Rejected proposed_api_error)).
  { unfold publish. rewrite Hp. chain. unfold publish_then. rewrite Hflag.
    chain. now rewrite app_nil_r. }
  rewrite Hrun. split; [reflexivity|].
  apply (publish_promise_offline options _ Hp).
Qed.

(** C6.  With both a package path and a version directive present (and
    non-empty), [publish] is rejected with
    "Not supported: packagePath and version." without a single external
    call. *)
Theorem C6_incompatible_options_no_io (options : IPublishOptions) :
  is_truthy (opt_packagePath options) = true ->
  is_truthy (opt_version options) = true ->
  publish' env options = ([], Rejected not_supported).
Proof.
  intros Hp Hv. unfold publish, publish_promise.
  unfold is_truthy in Hp. destruct (truthy (opt_packagePath options));
    [|discriminate].
  now rewrite Hv.
Qed.

End PublishEntry.

(** ** Bumping a version [semver] cannot parse *)

Section BumpUnparsedVersion.

Variable SemVer : Type.
Variable SemVer_new : string -> option SemVer.
Variable SemVer_inc : SemVer -> string -> option SemVer.
Variable SemVer_version : SemVer -> string.
Variable semver_valid : string -> option string.
Variable env : Env.

Local Abbreviation semver_inc :=
  (semver_package_inc SemVer SemVer_new SemVer_inc SemVer_version).

(** C10.  With a bump keyword as directive and a working-directory manifest
    whose version string [semver] cannot parse, [versionBump] does not
    reject with "Invalid version": it reads the manifest, gets [null] from
    [semver.inc] as the next version and, [null] being different from the
    version string, writes back the manifest it has read with its version
    set to [null] and nothing else changed; its outcome is that of the
    write. *)
Theorem C10_bump_of_invalid_version_writes_null
  (cwd : option string) (directive : string) (m : Manifest) (v : string) :
  directive = "major" \/ directive = "minor" \/ directive = "patch" ->
  let dir := default (process_cwd env) cwd in
  readManifest env (Some dir) (Some false) = Resolved m ->
  version m = VStr v ->
  SemVer_new v = None ->
  let written :=
    {| publisher := publisher m; name := name m; version := VNull;
       enableProposedApi := enableProposedApi m |} in
  semver_inc v directive = None
  /\ versionBump semver_valid semver_inc env cwd (Some directive)
     = ([EvReadManifest (Some dir) (Some false); EvWriteManifest dir written],
        writeManifest env dir written).
Proof.
  intros Hd dir Hread Hv Hparse written.
  assert (Hinc : semver_inc v directive = None).
  { unfold semver_package_inc. now rewrite Hparse. }
  split; [assumption|].
  assert (Hkw : truthy (Some directive) = Some directive
                /\ is_bump_keyword directive = true).
  { destruct Hd as [->|[->| ->]]; split; reflexivity. }
  destruct Hkw as [Ht Hkw].
  unfold versionBump. fold dir. rewrite Ht. chain.
  rewrite Hread, Hkw, Hv. cbn [semver_inc_slot]. rewrite Hinc.
  cbn [of_nullable strict_neq].
  change (set_version m VNull) with written.
  now destruct (writeManifest env dir written) as [[]|e|].
Qed.

End BumpUnparsedVersion.

(** ** Unpublish *)

Lemma lower_ascii_y (c : ascii) :
  lower_ascii c = "y"%char <-> c = "y"%char \/ c = "Y"%char.
Proof.
  destruct c as [[] [] [] [] [] [] [] []]; vm_compute; split;
    try discriminate; auto; intros [H|H]; discriminate.
Qed.

(** The confirmation pattern accepts the two one-letter answers only. *)
Lemma is_yes_spec (answer : string) :
  is_yes answer = true <-> answer = "y" \/ answer = "Y".
Proof.
  unfold is_yes. rewrite String.eqb_eq.
  destruct answer as [|c [|c' r]]; cbn.
  - split; [discriminate|]. intros [H|H]; discriminate.
  - split.
    + intros [= H]. apply lower_ascii_y in H as [-> | ->]; auto.
    + intros [[= ->]|[= ->]]; reflexivity.
  - split; [discriminate|]. intros [H|H]; discriminate.
Qed.

Lemma split_unfold (sep : ascii) (s : string) :
  split sep s
  = before_first sep s
    :: (if has_char sep s then split sep (after_first sep s) else []).
Proof.
  induction s as [|c r IH]; cbn; [reflexivity|].
  destruct (Ascii.eqb c sep); cbn; [reflexivity|].
  now rewrite IH.
Qed.

Lemma split_id_spec (id : string) :
  has_char "." id = true ->
  split_id id
  = (VStr (before_first "." id), VStr (before_first "." (after_first "." id))).
Proof.
  intros H. unfold split_id. rewrite split_unfold, H.
  rewrite (split_unfold _ (after_first "." id)). reflexivity.
Qed.

Section Unpublish.

Variable env : Env.
Variable options : IPublishOptions.

Lemma unpublish_identity_trace :
  fst (unpublish_identity env options) = []
  \/ fst (unpublish_identity env options)
     = [EvReadManifest (opt_cwd options) None].
Proof.
  unfold unpublish_identity. destruct (truthy (opt_id options)); [now left|].
  right. chain. now destruct (readManifest env _ _).
Qed.

Lemma unpublish_pat_trace (publisher : value) :
  fst (unpublish_pat env options publisher)
  = match truthy (opt_pat options) with
    | Some _ => []
    | None => [EvGetPublisher publisher]
    end.
Proof.
  unfold unpublish_pat. destruct (truthy (opt_pat options)); [reflexivity|].
  chain. now destruct (getPublisher env publisher).
Qed.

Lemma unpublish_pat_offline (publisher : value) :
  List.filter is_network (fst (unpublish_pat env options publisher)) = [].
Proof. rewrite unpublish_pat_trace. now destruct (truthy _). Qed.

(** C7 (as the code has it).  Let the identity resolve to [publisher] and
    [name] and let the prompt be answered.  An answer other than "y" or "Y"
    rejects [unpublish] with "Aborted" and no request reaches the gallery.
    With "y" or "Y", when a token is at hand (given as an option, or found
    by the credential lookup) exactly one request reaches the gallery, the
    deletion of [publisher].[name]; when the credential lookup was rejected,
    [unpublish] is rejected with the lookup's error and no request reaches
    the gallery. *)
Theorem C7_confirmation_gates_delete
  (t0 : list event) (publisher name : value) (answer : string) :
  unpublish_identity env options = (t0, Resolved (publisher, name)) ->
  read env (confirm_prompt (template publisher ++ "." ++ template name))
  = Resolved answer ->
  (answer <> "y" /\ answer <> "Y" ->
     snd (unpublish env options) = Rejected (ErrString "Aborted")
     /\ List.filter is_network (fst (unpublish env options)) = [])
  /\ (answer = "y" \/ answer = "Y" ->
      (forall pat,
         snd (unpublish_pat env options publisher) = Resolved pat ->
         List.filter is_network (fst (unpublish env options))
         = [EvDeleteExtension publisher name])
      /\ (forall e,
            snd (unpublish_pat env options publisher) = Rejected e ->
            snd (unpublish env options) = Rejected e
            /\ List.filter is_network (fst (unpublish env options)) = [])).
Proof.
  intros Hid Hread.
  assert (Ht0 : List.filter is_network t0 = []).
  { pose proof unpublish_identity_trace as H. rewrite Hid in H.
    destruct H as [H|H]; cbn in H; now subst t0. }
  pose proof (unpublish_pat_offline publisher) as Hpat.
  split.
  - intros Hno.
    assert (Hyes : is_yes answer = false).
    { destruct (is_yes answer) eqn:E; [|reflexivity].
      apply is_yes_spec in E. tauto. }
    unfold unpublish. rewrite Hid. chain. unfold unpublish_then. chain.
    rewrite Hread, Hyes. cbn [fst snd].
    rewrite !app_nil_r, !List.filter_app, Ht0, Hpat. split; reflexivity.
  - intros Hyes'. apply is_yes_spec in Hyes'. split.
    + intros pat Hcred.
      unfold unpublish. rewrite Hid. chain. unfold unpublish_then. chain.
      rewrite Hread, Hyes', Hcred. cbn [fst snd].
      destruct (deleteExtension env pat publisher name) as [[]|e|];
        cbn [fst snd]; rewrite ?app_nil_r, !List.filter_app, Ht0, Hpat;
        reflexivity.
    + intros e Hcred.
      unfold unpublish. rewrite Hid. chain. unfold unpublish_then. chain.
      rewrite Hread, Hyes', Hcred. cbn [fst snd].
      rewrite !app_nil_r, !List.filter_app, Ht0, Hpat. split; reflexivity.
Qed.

(** C8 (as the code has it).  Without a token among the options, once the
    identity is resolved [unpublish] first issues the credential lookup and
    then the prompt, whatever the answer will be.  A delete call can only
    follow a prompt answered with "y" or "Y"; on any other answer nothing
    follows the prompt and [unpublish] is rejected with "Aborted". *)
Theorem C8_lookup_before_prompt_delete_after
  (t0 : list event) (publisher name : value) :
  truthy (opt_pat options) = None ->
  unpublish_identity env options = (t0, Resolved (publisher, name)) ->
  let prompt := confirm_prompt (template publisher ++ "." ++ template name) in
  existsb is_delete t0 = false
  /\ exists rest,
       fst (unpublish env options)
       = (t0 ++ EvGetPublisher publisher :: EvRead prompt :: rest)%list
       /\ (existsb is_delete rest = true ->
           exists answer,
             read env prompt = Resolved answer /\ is_yes answer = true)
       /\ (forall answer,
             read env prompt = Resolved answer -> is_yes answer = false ->
             rest = []
             /\ snd (unpublish env options) = Rejected (ErrString "Aborted")).
Proof.
  intros Hpat Hid prompt. split.
  { pose proof unpublish_identity_trace as H. rewrite Hid in H.
    destruct H as [H|H]; cbn in H; now subst t0. }
  unfold unpublish. rewrite Hid. chain. unfold unpublish_then. chain.
  rewrite unpublish_pat_trace, Hpat. fold prompt.
  destruct (read env prompt) as [answer|e|].
  - destruct (is_yes answer) eqn:Hyes.
    + destruct (snd (unpublish_pat env options publisher)) as [pat|e|].
      * destruct (deleteExtension env pat publisher name) as [[]|e|];
          cbn [fst snd]; eexists; (split; [reflexivity|]);
          (split; [intros _; now exists answer | intros a [= <-]; congruence]).
      * cbn [fst snd]. exists []. split; [reflexivity|].
        split; [discriminate | intros a [= <-]; congruence].
      * cbn [fst snd]. exists []. split; [reflexivity|].
        split; [discriminate | intros a [= <-]; congruence].
    + cbn [fst snd]. exists []. split; [reflexivity|].
      split; [discriminate | intros a _ _; split; reflexivity].
  - cbn [fst snd]. exists []. split; [reflexivity|].
    split; [discriminate | intros a [=]].
  - cbn [fst snd]. exists []. split; [reflexivity|].
    split; [discriminate | intros a [=]].
Qed.

(** C9 (as the code has it).  For a combined identifier with at least one
    '.', the publisher is the text before the first '.', and the name is the
    text between the first '.' and the second one, or up to the end of the
    identifier when there is no second '.'. *)
Theorem C9_identifier_split_keeps_second_segment (id : string) :
  opt_id options = Some id ->
  has_char "." id = true ->
  unpublish_identity env options
  = ([], Resolved (VStr (before_first "." id),
                   VStr (before_first "." (after_first "." id)))).
Proof.
  intros Hid Hdot. unfold unpublish_identity. rewrite Hid.
  destruct id as [|c r]; [discriminate|]. cbn [truthy].
  now rewrite split_id_spec.
Qed.

End Unpublish.

(** ** The model at work on concrete inputs *)

Lemma C1_witness :
  _publish Demo.env "/tmp/a.vsix" "token" Demo.acme_tool
  = ([EvGetGalleryAPI "token"; EvCreateReadStream "/tmp/a.vsix";
      EvLog "Publishing acme.tool@1.0.0..."; EvGetExtension "acme" "tool"],
     Rejected (ErrString
       "acme.tool@1.0.0 already exists. Version number cannot be the same."))
  /\ existsb is_transfer
       (fst (_publish Demo.env "/tmp/a.vsix" "token" Demo.acme_tool)) = false.
Proof.
  apply (C1_duplicate_version_rejected Demo.env "/tmp/a.vsix" "token"
           Demo.acme_tool (Demo.published ["0.9.0"; "1.0.0"])
           {| ev_version := "1.0.0" |} "1.0.0").
  - reflexivity.
  - simpl. right. left. reflexivity.
  - reflexivity.
  - reflexivity.
Defined.

Lemma C2_witness :
  List.filter is_network
    (fst (_publish (Demo.env_gallery (Rejected (ErrObject (Some 404%Z) "Not Found")))
            "/tmp/a.vsix" "token" Demo.acme_tool))
  = [EvGetExtension "acme" "tool"; EvCreateExtension "/tmp/a.vsix"]
  /\ snd (_publish
            (Demo.env_gallery (Rejected (ErrObject (Some 401%Z) "Unauthorized")))
            "/tmp/a.vsix" "token" Demo.acme_tool)
     = Rejected (ErrObject (Some 401%Z) "Unauthorized")
  /\ List.filter is_network
       (fst (_publish
               (Demo.env_gallery (Resolved (Some (Demo.published ["0.9.0"]))))
               "/tmp/a.vsix" "token" Demo.acme_tool))
     = [EvGetExtension "acme" "tool";
        EvUpdateExtension "/tmp/a.vsix" "acme" "tool"].
Proof.
  split; [|split].
  - apply (proj1 (C2_query_decides_transfer
                    (Demo.env_gallery (Rejected (ErrObject (Some 404%Z) "Not Found")))
                    "/tmp/a.vsix" "token" Demo.acme_tool)
             (ErrObject (Some 404%Z) "Not Found")); reflexivity.
  - destruct (proj1 (proj2 (C2_query_decides_transfer
                    (Demo.env_gallery
                       (Rejected (ErrObject (Some 401%Z) "Unauthorized")))
                    "/tmp/a.vsix" "token" Demo.acme_tool))
                (ErrObject (Some 401%Z) "Unauthorized") eq_refl eq_refl)
      as [Hrun _].
    rewrite Hrun. reflexivity.
  - apply (proj2 (proj2 (C2_query_decides_transfer
                    (Demo.env_gallery
                       (Resolved (Some (Demo.published ["0.9.0"]))))
                    "/tmp/a.vsix" "token" Demo.acme_tool))
             (Demo.published ["0.9.0"])); reflexivity.
Defined.

Lemma C3_witness :
  promise_outcome
    (zip_run Demo.parse Demo.toString zip_init Demo.trace_without_manifest)
  = Pending
  /\ readManifestFromPackage Demo.parse Demo.toString
       Demo.env_without_manifest "tool.vsix"
     = ([EvYauzlOpen "tool.vsix"], Rejected manifest_not_found).
Proof.
  destruct (C3_manifest_not_found_only_at_end Demo.parse Demo.toString
              Demo.env_without_manifest "tool.vsix"
              Demo.trace_without_manifest [] eq_refl eq_refl)
    as (Hpending & _ & Hrun & _).
  split; assumption.
Defined.

Lemma C4_witness :
  readManifestFromPackage Demo.parse Demo.toString Demo.env "tool.vsix"
  = ([EvYauzlOpen "tool.vsix"], Resolved Demo.acme_tool).
Proof.
  apply (C4_manifest_from_matching_entry Demo.parse Demo.toString Demo.env
           "tool.vsix" Demo.trace_before_manifest Demo.trace_after_manifest
           (Demo.entry 1 "Extension/Package.JSON") Demo.chunks);
    reflexivity.
Defined.

Lemma C5_witness :
  publish Demo.parse Demo.toString SemverModel.valid SemverModel.inc
    (Demo.env_workdir Demo.proposed_tool) Demo.no_options
  = ([EvTmpName;
      EvPack {| pack_packagePath := "/tmp/a.vsix"; pack_cwd := None;
                pack_baseContentUrl := None; pack_baseImagesUrl := None |}],
     Rejected proposed_api_error).
Proof.
  apply (C5_proposed_api_rejected_offline Demo.parse Demo.toString
           SemverModel.valid SemverModel.inc
           (Demo.env_workdir Demo.proposed_tool) Demo.no_options _
           {| manifest := Demo.proposed_tool; packagePath := "/tmp/a.vsix" |});
    reflexivity.
Defined.

Lemma C6_witness :
  publish Demo.parse Demo.toString SemverModel.valid SemverModel.inc
    Demo.env Demo.package_and_version
  = ([], Rejected (ErrString "Not supported: packagePath and version.")).
Proof.
  apply (C6_incompatible_options_no_io Demo.parse Demo.toString
           SemverModel.valid SemverModel.inc Demo.env
           Demo.package_and_version); reflexivity.
Defined.

(** C7, refuted as stated: the user answers "y", but the credential lookup
    was rejected, and no delete call is issued. *)
Lemma C7_counterexample :
  unpublish_identity DemoMore.env_without_credentials
    (Demo.with_id "acme.tool")
  = ([], Resolved (VStr "acme", VStr "tool"))
  /\ read DemoMore.env_without_credentials (confirm_prompt "acme.tool")
     = Resolved "y"
  /\ unpublish DemoMore.env_without_credentials (Demo.with_id "acme.tool")
     = ([EvGetPublisher (VStr "acme"); EvRead (confirm_prompt "acme.tool")],
        Rejected DemoMore.unknown_publisher)
  /\ ~ (forall env options t0 publisher name answer,
          unpublish_identity env options = (t0, Resolved (publisher, name)) ->
          read env (confirm_prompt (template publisher ++ "." ++ template name))
          = Resolved answer ->
          answer = "y" \/ answer = "Y" ->
          List.filter is_delete (fst (unpublish env options))
          = [EvDeleteExtension publisher name]).
Proof.
  split; [reflexivity|]. split; [reflexivity|]. split; [reflexivity|].
  intros H.
  specialize (H DemoMore.env_without_credentials (Demo.with_id "acme.tool")
                [] (VStr "acme") (VStr "tool") "y" eq_refl eq_refl
                (or_introl eq_refl)).
  discriminate H.
Qed.

Lemma C7_witness :
  (snd (unpublish (Demo.env_answering "n") (Demo.with_id "acme.tool"))
   = Rejected (ErrString "Aborted")
   /\ List.filter is_network
        (fst (unpublish (Demo.env_answering "n") (Demo.with_id "acme.tool")))
      = [])
  /\ List.filter is_network
       (fst (unpublish (Demo.env_answering "y") (Demo.with_id "acme.tool")))
     = [EvDeleteExtension (VStr "acme") (VStr "tool")]
  /\ (snd (unpublish DemoMore.env_without_credentials
             (Demo.with_id "acme.tool"))
      = Rejected DemoMore.unknown_publisher
      /\ List.filter is_network
           (fst (unpublish DemoMore.env_without_credentials
                   (Demo.with_id "acme.tool")))
         = []).
Proof.
  split; [|split].
  - apply (proj1 (C7_confirmation_gates_delete (Demo.env_answering "n")
                    (Demo.with_id "acme.tool") [] (VStr "acme") (VStr "tool")
                    "n" eq_refl eq_refl)).
    split; discriminate.
  - apply (proj1 (proj2 (C7_confirmation_gates_delete (Demo.env_answering "y")
                    (Demo.with_id "acme.tool") [] (VStr "acme") (VStr "tool")
                    "y" eq_refl eq_refl) (or_introl eq_refl)) "token").
    reflexivity.
  - apply (proj2 (proj2 (C7_confirmation_gates_delete
                    DemoMore.env_without_credentials
                    (Demo.with_id "acme.tool") [] (VStr "acme") (VStr "tool")
                    "y" eq_refl eq_refl) (or_introl eq_refl))
             DemoMore.unknown_publisher).
    reflexivity.
Defined.

(** C8, refuted as stated: the user answers "n", no token is among the
    options, and yet the credential lookup has been issued, ahead of the
    prompt. *)
Lemma C8_counterexample :
  truthy (opt_pat (Demo.with_id "acme.tool")) = None
  /\ unpublish (Demo.env_answering "n") (Demo.with_id "acme.tool")
     = ([EvGetPublisher (VStr "acme");
         EvRead "This will FOREVER delete 'acme.tool'! Are you sure? [y/N] "],
        Rejected (ErrString "Aborted"))
  /\ ~ (forall env options,
          truthy (opt_pat options) = None ->
          snd (unpublish env options) = Rejected (ErrString "Aborted") ->
          existsb is_credential_lookup (fst (unpublish env options)) = false).
Proof.
  split; [reflexivity|]. split; [reflexivity|].
  intros H.
  specialize (H (Demo.env_answering "n") (Demo.with_id "acme.tool")
                eq_refl eq_refl).
  discriminate H.
Qed.

Lemma C8_witness :
  existsb is_delete [] = false
  /\ exists rest,
       fst (unpublish (Demo.env_answering "n") (Demo.with_id "acme.tool"))
       = ([] ++ EvGetPublisher (VStr "acme")
             :: EvRead (confirm_prompt "acme.tool") :: rest)%list
       /\ (existsb is_delete rest = true ->
           exists answer,
             read (Demo.env_answering "n") (confirm_prompt "acme.tool")
             = Resolved answer /\ is_yes answer = true)
       /\ (forall answer,
             read (Demo.env_answering "n") (confirm_prompt "acme.tool")
             = Resolved answer -> is_yes answer = false ->
             rest = []
             /\ snd (unpublish (Demo.env_answering "n")
                       (Demo.with_id "acme.tool"))
                = Rejected (ErrString "Aborted")).
Proof.
  apply (C8_lookup_before_prompt_delete_after (Demo.env_answering "n")
           (Demo.with_id "acme.tool") [] (VStr "acme") (VStr "tool"));
    reflexivity.
Defined.

(** C9, refuted as stated: for "acme.tool.extra" the name is "tool", not the
    remainder "tool.extra". *)
Lemma C9_counterexample :
  has_char "." "acme.tool.extra" = true
  /\ unpublish_identity Demo.env (Demo.with_id "acme.tool.extra")
     = ([], Resolved (VStr "acme", VStr "tool"))
  /\ after_first "." "acme.tool.extra" = "tool.extra"
  /\ ~ (forall env id,
          has_char "." id = true ->
          unpublish_identity env (Demo.with_id id)
          = ([], Resolved (VStr (before_first "." id),
                           VStr (after_first "." id)))).
Proof.
  repeat split.
  intros H. specialize (H Demo.env "acme.tool.extra" eq_refl).
  discriminate H.
Qed.

Lemma C9_witness :
  unpublish_identity Demo.env (Demo.with_id "acme.tool")
  = ([], Resolved (VStr "acme", VStr "tool")).
Proof.
  apply (C9_identifier_split_keeps_second_segment Demo.env
           (Demo.with_id "acme.tool") "acme.tool"); reflexivity.
Defined.

Lemma C10_witness :
  SemverModel.parse "latest" = None
  /\ versionBump SemverModel.valid
       (semver_package_inc (nat * nat * nat) SemverModel.parse DemoSemver.bump
          SemverModel.show)
       (Demo.env_workdir Demo.unversioned_tool) None (Some "minor")
     = ([EvReadManifest (Some "/work") (Some false);
         EvWriteManifest "/work"
           {| publisher := "acme"; name := "tool"; version := VNull;
              enableProposedApi := false |}],
        Resolved tt).
Proof.
  split; [reflexivity|].
  apply (C10_bump_of_invalid_version_writes_null (nat * nat * nat)
           SemverModel.parse DemoSemver.bump SemverModel.show
           SemverModel.valid (Demo.env_workdir Demo.unversioned_tool)
           None "minor" Demo.unversioned_tool "latest").
  - right. left. reflexivity.
  - reflexivity.
  - reflexivity.
  - reflexivity.
Defined.

(** * Further properties *)

(** ** The archive scan, continued *)

Section ArchiveScanMore.

Variable JSON_parse : string -> error + Manifest.
Variable utf8_toString : list byte -> string.

Local Abbreviation step := (zip_step JSON_parse utf8_toString).
Local Abbreviation run := (zip_run JSON_parse utf8_toString).
Local Abbreviation no_match :=
  (forallb (fun ev => negb (is_match_event ev))).

(** Events that concern stream [id] leave the other streams alone. *)
Lemma step_others_idle (id : nat) (s : zip_state) (ev : zip_event) :
  concerns id ev = true -> others_idle id s -> others_idle id (step s ev).
Proof.
  intros Hc Hidle j Hj. destruct (Hidle j Hj) as [Hs Ho].
  destruct ev as [entry| |i err|i buffer|i err|i]; cbn in Hc;
    try discriminate; apply Nat.eqb_eq in Hc; subst i; cbn.
  - destruct (decide (id ∈ opening s)); [|now split].
    destruct err as [err'|]; unfold settle; cbn.
    + destruct (settled s); cbn; split; try assumption;
        rewrite elem_of_difference; tauto.
    + split; [now rewrite lookup_insert_ne|].
      rewrite elem_of_difference; tauto.
  - destruct (streams s !! id); [|now split]. cbn.
    split; [now rewrite lookup_insert_ne | assumption].
  - destruct (streams s !! id) as [st|]; [|now split].
    destruct (on_error st); [|now split]. unfold settle; cbn.
    destruct (settled s); cbn;
      (split; [now rewrite lookup_insert_ne | assumption]).
  - destruct (streams s !! id) as [st|]; [|now split].
    destruct (on_end st); [|now split]. unfold settle; cbn.
    destruct (settled s); cbn;
      (split; [now rewrite lookup_insert_ne | assumption]).
Qed.

(** Skip to the next event of stream [id]. *)
Lemma run_to_next (id : nat) (evs : list zip_event) :
  forall (s : zip_state) (ev : zip_event) (rest : list zip_event),
  no_match evs = true ->
  List.filter (concerns id) evs = ev :: rest ->
  end_listener s = false -> others_idle id s ->
  exists evs',
    run s evs = run (step s ev) evs'
    /\ no_match evs' = true
    /\ List.filter (concerns id) evs' = rest.
Proof.
  induction evs as [|e evs IH]; intros s ev rest Hun Hf He Hidle.
  - discriminate.
  - cbn [forallb] in Hun. apply andb_true_iff in Hun as [Hm Hun].
    apply negb_true_iff in Hm. cbn [List.filter] in Hf.
    destruct (concerns id e) eqn:Hc.
    + injection Hf as -> Hf. exists evs. now rewrite run_cons.
    + rewrite run_cons, (step_ignored _ _ id) by assumption.
      now apply IH.
Qed.

Lemma step_entry_requested (entry : Entry) :
  is_manifest_entry (fileName entry) = true ->
  requested (entry_id entry) (step zip_init (ZipEntry entry)).
Proof.
  intros Hm. unfold requested. cbn. rewrite Hm. cbn.
  split; [reflexivity|]. split; [|split; [reflexivity|]].
  - intros j Hj. cbn. split; [apply lookup_empty|].
    rewrite elem_of_union, elem_of_singleton, elem_of_empty. tauto.
  - apply elem_of_union_l. now apply elem_of_singleton.
Qed.

(** A stream that opens has no chunk yet. *)
Lemma step_callback_reading (id : nat) (s : zip_state) :
  requested id s ->
  reading id [] (step s (ReadStreamCallback id None)).
Proof.
  intros (He & Hidle & Hs & Hop). unfold reading.
  split; [now apply step_end_listener_off|].
  split; [now apply step_others_idle; [apply Nat.eqb_refl|]|].
  cbn. destruct (decide (id ∈ opening s)); [|done]. cbn.
  repeat split; try assumption. apply lookup_insert_eq.
Qed.

Lemma step_data_reading (id : nat) (bufs : list (list byte))
  (buffer : list byte) (s : zip_state) :
  reading id bufs s ->
  reading id (bufs ++ [buffer]) (step s (StreamData id buffer)).
Proof.
  intros (He & Hidle & Hs & Hst). unfold reading.
  split; [now apply step_end_listener_off|].
  split; [now apply step_others_idle; [apply Nat.eqb_refl|]|].
  cbn. rewrite Hst. cbn. repeat split; try assumption.
  apply lookup_insert_eq.
Qed.

(** Chunks are accumulated in the order of arrival, whatever else arrives
    in between. *)
Lemma run_data_reading (id : nat) (chunks : list (list byte)) :
  forall (evs tail : list zip_event) (s : zip_state)
         (bufs : list (list byte)),
  no_match evs = true ->
  List.filter (concerns id) evs = (map (StreamData id) chunks ++ tail)%list ->
  reading id bufs s ->
  exists evs' s',
    run s evs = run s' evs'
    /\ no_match evs' = true
    /\ List.filter (concerns id) evs' = tail
    /\ reading id (bufs ++ chunks) s'.
Proof.
  induction chunks as [|c chunks IH]; intros evs tail s bufs Hun Hf Hr.
  - exists evs, s. now rewrite app_nil_r.
  - cbn [map app] in Hf. pose proof Hr as (He & Hidle & _).
    destruct (run_to_next id evs s _ _ Hun Hf He Hidle)
      as (evs1 & Hrun & Hun1 & Hf1).
    destruct (IH evs1 tail (step s (StreamData id c)) (bufs ++ [c])%list
                Hun1 Hf1)
      as (evs' & s' & Hrun' & Hun' & Hf' & Hr').
    { now apply step_data_reading. }
    exists evs', s'. rewrite Hrun, Hrun'.
    split; [reflexivity|]. split; [assumption|]. split; [assumption|].
    now rewrite <- app_assoc in Hr'.
Qed.


Lemma run_pre_entry (pre post : list zip_event) (entry : Entry) :
  forallb (fun ev => negb (is_match_event ev) && negb (is_end_event ev)) pre
  = true ->
  run zip_init (pre ++ ZipEntry entry :: post)
  = run (step zip_init (ZipEntry entry)) post.
Proof.
  intros Hpre.
  now rewrite (run_app JSON_parse utf8_toString),
    (run_init_unrelated JSON_parse utf8_toString), run_cons.
Qed.

(** X1.  When the callback of [openReadStream] reports an error for the
    manifest entry, [readManifestFromPackage] is rejected with that error,
    whatever the archive and the stream deliver afterwards. *)
Theorem X1_open_read_stream_error
  (env : Env) (path : string) (pre post rest : list zip_event)
  (entry : Entry) (err : error) :
  yauzl_open env path = inr (pre ++ ZipEntry entry :: post)%list ->
  is_manifest_entry (fileName entry) = true ->
  forallb (fun ev => negb (is_match_event ev) && negb (is_end_event ev)) pre
  = true ->
  no_match post = true ->
  List.filter (concerns (entry_id entry)) post
  = ReadStreamCallback (entry_id entry) (Some err) :: rest ->
  readManifestFromPackage JSON_parse utf8_toString env path
  = ([EvYauzlOpen path], Rejected err).
Proof.
  intros Hopen Hm Hpre Hpost Hf.
  unfold readManifestFromPackage, call. rewrite Hopen, run_pre_entry by assumption.
  destruct (step_entry_requested entry Hm) as (He & Hidle & Hs & Hop).
  destruct (run_to_next _ post _ _ _ Hpost Hf He Hidle) as (evs' & -> & _).
  f_equal. apply (promise_outcome_settled _ (inl err)).
  apply run_settled. cbn. rewrite Hm. cbn.
  destruct (decide _) as [_|Hn]; [reflexivity|].
  exfalso. apply Hn. apply elem_of_union_l. now apply elem_of_singleton.
Qed.

(** X2.  When the stream of the manifest entry opens, delivers some chunks
    and then emits an error, [readManifestFromPackage] is rejected with that
    error, whatever comes afterwards: a later end of the stream does not
    change the result. *)
Theorem X2_stream_error_rejects
  (env : Env) (path : string) (pre post rest : list zip_event)
  (entry : Entry) (chunks : list (list byte)) (err : error) :
  yauzl_open env path = inr (pre ++ ZipEntry entry :: post)%list ->
  is_manifest_entry (fileName entry) = true ->
  forallb (fun ev => negb (is_match_event ev) && negb (is_end_event ev)) pre
  = true ->
  no_match post = true ->
  List.filter (concerns (entry_id entry)) post
  = (ReadStreamCallback (entry_id entry) None
     :: map (StreamData (entry_id entry)) chunks
     ++ StreamError (entry_id entry) err :: rest)%list ->
  readManifestFromPackage JSON_parse utf8_toString env path
  = ([EvYauzlOpen path], Rejected err).
Proof.
  intros Hopen Hm Hpre Hpost Hf.
  unfold readManifestFromPackage, call. rewrite Hopen, run_pre_entry by assumption.
  pose proof (step_entry_requested entry Hm) as Hreq.
  pose proof Hreq as (He & Hidle & _).
  destruct (run_to_next _ post _ _ _ Hpost Hf He Hidle)
    as (evs1 & -> & Hun1 & Hf1).
  apply step_callback_reading in Hreq.
  destruct (run_data_reading _ chunks evs1 _ _ [] Hun1 Hf1 Hreq)
    as (evs2 & s2 & -> & Hun2 & Hf2 & (He2 & Hidle2 & Hs2 & Hst2)).
  destruct (run_to_next _ evs2 _ _ _ Hun2 Hf2 He2 Hidle2) as (evs3 & -> & _).
  f_equal. apply (promise_outcome_settled _ (inl err)).
  apply run_settled. cbn. rewrite Hst2. cbn. unfold settle. cbn.
  now rewrite Hs2.
Qed.

(** Without a manifest entry nothing is opened, and the promise is pending
    or rejected with "Manifest not found". *)
Lemma run_without_match (evs : list zip_event) :
  forall s : zip_state,
  no_match evs = true ->
  opening s = ∅ -> streams s = ∅ ->
  settled s = None \/ settled s = Some (inl manifest_not_found) ->
  let s' := run s evs in
  opening s' = ∅ /\ streams s' = ∅
  /\ (settled s' = None \/ settled s' = Some (inl manifest_not_found)).
Proof.
  induction evs as [|ev evs IH]; intros s Hun Hop Hst Hs; [now cbn|].
  cbn [forallb] in Hun. apply andb_true_iff in Hun as [Hm Hun].
  apply negb_true_iff in Hm. cbn zeta. rewrite run_cons.
  assert (Hstep : opening (step s ev) = ∅ /\ streams (step s ev) = ∅
                  /\ (settled (step s ev) = None
                      \/ settled (step s ev) = Some (inl manifest_not_found))).
  { destruct ev as [entry| |i err|i buffer|i err|i]; cbn in *.
    - now rewrite Hm.
    - destruct (end_listener s); [|tauto]. unfold settle. cbn.
      destruct Hs as [-> | Hs]; cbn; [tauto|]. rewrite Hs. cbn. tauto.
    - rewrite Hop. destruct (decide (i ∈ ∅)) as [Hin|_]; [|tauto].
      now apply elem_of_empty in Hin.
    - now rewrite Hst, lookup_empty.
    - now rewrite Hst, lookup_empty.
    - now rewrite Hst, lookup_empty. }
  destruct Hstep as (H1 & H2 & H3). now apply IH.
Qed.

(** X3.  Whatever the events, [readManifestFromPackage] resolves only if the
    archive delivered an entry named extension/package.json up to case. *)
Theorem X3_resolves_only_from_manifest_entry
  (env : Env) (path : string) (m : Manifest) :
  snd (readManifestFromPackage JSON_parse utf8_toString env path)
  = Resolved m ->
  exists evs,
    yauzl_open env path = inr evs /\ existsb is_match_event evs = true.
Proof.
  unfold readManifestFromPackage, call. cbn [snd].
  destruct (yauzl_open env path) as [e|evs]; [discriminate|].
  intros Hres. exists evs. split; [reflexivity|].
  destruct (existsb is_match_event evs) eqn:Hex; [reflexivity|].
  assert (Hun : no_match evs = true).
  { clear Hres. induction evs as [|ev evs IH]; [reflexivity|].
    cbn in *. apply orb_false_iff in Hex as [-> Hex]. now apply IH. }
  destruct (run_without_match evs zip_init Hun eq_refl eq_refl (or_introl eq_refl))
    as (_ & _ & [Hs|Hs]); unfold promise_outcome in Hres;
    rewrite Hs in Hres; discriminate.
Qed.

(** X4.  The promise settles once: after [evs] has settled it, no further
    event changes the result. *)
Theorem X4_settles_once (evs more : list zip_event) :
  promise_outcome (run zip_init evs) <> Pending ->
  promise_outcome (run zip_init (evs ++ more))
  = promise_outcome (run zip_init evs).
Proof.
  intros Hs. rewrite (run_app JSON_parse utf8_toString).
  unfold promise_outcome in *.
  destruct (settled (run zip_init evs)) as [r|] eqn:Hr; [|congruence].
  now rewrite (run_settled JSON_parse utf8_toString more _ r).
Qed.

(** X5.  While the promise is pending, the first entry stream to end decides
    the result, with the chunks it has accumulated: with several manifest
    entries the one taken is the one whose stream ends first, not the first
    in archive order. *)
Theorem X5_first_stream_end_decides
  (evs more : list zip_event) (id : nat) (st : stream) :
  settled (run zip_init evs) = None ->
  streams (run zip_init evs) !! id = Some st ->
  on_end st = true ->
  promise_outcome (run zip_init (evs ++ StreamEnd id :: more))
  = settled_outcome (JSON_parse (utf8_toString (concat (buffers st)))).
Proof.
  intros Hs Hst Hend. rewrite (run_app JSON_parse utf8_toString), run_cons.
  apply promise_outcome_settled, run_settled.
  cbn. rewrite Hst, Hend. unfold settle. cbn. now rewrite Hs.
Qed.

End ArchiveScanMore.

(** ** The publish transaction, continued *)

Lemma prefix_app (needle rest : string) :
  String.prefix needle (needle ++ rest) = true.
Proof.
  induction needle as [|c needle IH]; [now destruct rest|].
  change (String.prefix (String c needle) (String c (needle ++ rest)) = true).
  cbn [String.prefix].
  destruct (ascii_dec c c) as [_|Hc]; [assumption|congruence].
Qed.

Lemma includes_prefix (needle haystack : string) :
  String.prefix needle haystack = true -> includes needle haystack = true.
Proof. intros H. destruct haystack; cbn [includes]; now rewrite H. Qed.

(** The pattern test finds the needle wherever it occurs. *)
Lemma includes_app (needle pre post : string) :
  includes needle (pre ++ needle ++ post) = true.
Proof.
  induction pre as [|c pre IH].
  - change ("" ++ needle ++ post) with (needle ++ post).
    apply includes_prefix, prefix_app.
  - change (String c pre ++ needle ++ post)
      with (String c (pre ++ needle ++ post)).
    cbn [includes]. rewrite IH. apply orb_true_r.
Qed.

Section PublishMore.

Variable env : Env.
Variables packagePath pat : string.
Variable m : Manifest.

Lemma _publish_network :
  List.filter is_network (fst (_publish env packagePath pat m))
  = EvGetExtension (publisher m) (name m)
    :: match getExtension env pat (publisher m) (name m) with
       | Resolved (Some ext) =>
           if has_version ext m then []
           else [EvUpdateExtension packagePath (publisher m) (name m)]
       | Resolved None => [EvCreateExtension packagePath]
       | Rejected err =>
           if has_status err 404 then [EvCreateExtension packagePath] else []
       | Pending => []
       end.
Proof.
  unfold _publish. chain.
  destruct (getExtension env pat (publisher m) (name m)) as [[ext|]|err|].
  - destruct (has_version ext m); [reflexivity|].
    now destruct (updateExtension env pat packagePath (publisher m) (name m))
      as [[]|e|].
  - now destruct (createExtension env pat packagePath) as [[]|e|].
  - destruct (has_status err 404); [|reflexivity].
    now destruct (createExtension env pat packagePath) as [[]|e|].
  - reflexivity.
Qed.

(** X6.  [_publish] always sends exactly one query to the gallery and at
    most one transfer after it, and never a delete: an update when the query
    found an extension without the manifest's version, a create when it
    found nothing (status 404, or a null answer), and no transfer when the
    version exists, the query failed otherwise, or it never answered. *)
Theorem X6_one_query_at_most_one_transfer :
  List.filter is_network (fst (_publish env packagePath pat m))
  = EvGetExtension (publisher m) (name m)
    :: match getExtension env pat (publisher m) (name m) with
       | Resolved (Some ext) =>
           if has_version ext m then []
           else [EvUpdateExtension packagePath (publisher m) (name m)]
       | Resolved None => [EvCreateExtension packagePath]
       | Rejected err =>
           if has_status err 404 then [EvCreateExtension packagePath] else []
       | Pending => []
       end.
Proof. exact _publish_network. Qed.

Lemma transfer_rejected_outcome (err : error) :
  transfer_rejected env packagePath pat m err ->
  snd (_publish env packagePath pat m)
  = Rejected (explain_invalid_resource
                (if has_status err 409
                 then ErrString (fullName_of m ++ " already exists.")
                 else err)).
Proof.
  unfold transfer_rejected. cbn zeta.
  intros [[[Hq|(e & Hq & H404)] Htr]|(ext & Hq & Hv & Htr)];
    unfold _publish; chain; rewrite Hq, ?H404, ?Hv, Htr; reflexivity.
Qed.

(** X7.  When the transfer (create or update) is rejected with status 409,
    [_publish] is rejected with the string
    "publisher.name@version already exists.", not with the gallery's error. *)
Theorem X7_conflict_on_transfer (err : error) :
  transfer_rejected env packagePath pat m err ->
  has_status err 409 = true ->
  snd (_publish env packagePath pat m)
  = Rejected (ErrString (fullName_of m ++ " already exists.")).
Proof.
  intros Htr H409. rewrite (transfer_rejected_outcome err Htr), H409.
  reflexivity.
Qed.

(** X8.  When the transfer is rejected with an error object whose status is
    not 409 and whose message contains "Invalid Resource", [_publish] is
    rejected with the same status and the message followed by the hint about
    an expired token. *)
Theorem X8_expired_token_hint_on_transfer
  (code : option Z) (before after : string) :
  let message := before ++ "Invalid Resource" ++ after in
  transfer_rejected env packagePath pat m (ErrObject code message) ->
  has_status (ErrObject code message) 409 = false ->
  snd (_publish env packagePath pat m)
  = Rejected (ErrObject code (message ++ expired_pat_hint)).
Proof.
  intros message Htr H409.
  rewrite (transfer_rejected_outcome _ Htr), H409.
  unfold explain_invalid_resource, message. now rewrite includes_app.
Qed.

Lemma transfer_resolved_cases :
  transfer_resolved env packagePath pat m
  <-> match getExtension env pat (publisher m) (name m) with
      | Resolved (Some ext) =>
          has_version ext m = false
          /\ updateExtension env pat packagePath (publisher m) (name m)
             = Resolved tt
      | Resolved None => createExtension env pat packagePath = Resolved tt
      | Rejected err =>
          has_status err 404 = true
          /\ createExtension env pat packagePath = Resolved tt
      | Pending => False
      end.
Proof.
  unfold transfer_resolved. cbn zeta.
  destruct (getExtension env pat (publisher m) (name m)) as [[ext|]|err|];
    split.
  - intros [[[H|(e & H & _)] _]|(ext' & [= <-] & Hv & Hu)];
      [discriminate | discriminate | now split].
  - intros [Hv Hu]. right. now exists ext.
  - intros [[_ Hc]|(ext' & H & _)]; [assumption | discriminate].
  - intros Hc. left. split; [now left | assumption].
  - intros [[[H|(e & [= <-] & H404)] Hc]|(ext' & H & _)];
      [discriminate | now split | discriminate].
  - intros [H404 Hc]. left. split; [|assumption]. right. now exists err.
  - intros [[[H|(e & H & _)] _]|(ext' & H & _)]; discriminate.
  - intros [].
Qed.

Lemma success_log_not_in_prelude :
  ~ In (success_log m) (publish_prelude packagePath pat m).
Proof.
  unfold success_log, publish_prelude. cbn [In].
  intros [H|[H|[H|[H|[]]]]]; discriminate H.
Qed.

(** Every run of [_publish]: a transfer that resolved, the success message
    and a resolved promise; or no resolved transfer, no success message and
    a promise that is not resolved. *)
Lemma _publish_cases :
  (transfer_resolved env packagePath pat m
   /\ exists transfer,
        is_transfer transfer = true
        /\ _publish env packagePath pat m
           = ((publish_prelude packagePath pat m
               ++ [transfer; success_log m])%list, Resolved tt))
  \/ (~ transfer_resolved env packagePath pat m
      /\ snd (_publish env packagePath pat m) <> Resolved tt
      /\ exists tail,
           fst (_publish env packagePath pat m)
           = (publish_prelude packagePath pat m ++ tail)%list
           /\ (tail = []
               \/ exists transfer, is_transfer transfer = true
                                   /\ tail = [transfer])).
Proof.
  rewrite transfer_resolved_cases.
  unfold _publish, success_log, publish_prelude. chain.
  destruct (getExtension env pat (publisher m) (name m)) as [[ext|]|err|].
  - destruct (has_version ext m).
    + right. split; [now intros [H _]|]. split; [discriminate|].
      exists []. now split; [|left].
    + destruct (updateExtension env pat packagePath (publisher m) (name m))
        as [[]|e|]; cbn [fst snd app].
      * left. split; [now split|]. eexists. split; [|reflexivity].
        reflexivity.
      * right. split; [now intros [_ H]|]. split; [discriminate|].
        eexists. split; [reflexivity|]. right. eexists.
        split; [|reflexivity]. reflexivity.
      * right. split; [now intros [_ H]|]. split; [discriminate|].
        eexists. split; [reflexivity|]. right. eexists.
        split; [|reflexivity]. reflexivity.
  - destruct (createExtension env pat packagePath) as [[]|e|];
      cbn [fst snd app].
    + left. split; [reflexivity|]. eexists. split; [|reflexivity].
      reflexivity.
    + right. split; [discriminate|]. split; [discriminate|].
      eexists. split; [reflexivity|]. right. eexists.
        split; [|reflexivity]. reflexivity.
    + right. split; [discriminate|]. split; [discriminate|].
      eexists. split; [reflexivity|]. right. eexists.
        split; [|reflexivity]. reflexivity.
  - destruct (has_status err 404).
    + destruct (createExtension env pat packagePath) as [[]|e|];
        cbn [fst snd app].
      * left. split; [now split|]. eexists. split; [|reflexivity].
        reflexivity.
      * right. split; [now intros [_ H]|]. split; [discriminate|].
        eexists. split; [reflexivity|]. right. eexists.
        split; [|reflexivity]. reflexivity.
      * right. split; [now intros [_ H]|]. split; [discriminate|].
        eexists. split; [reflexivity|]. right. eexists.
        split; [|reflexivity]. reflexivity.
    + right. split; [now intros [H _]|]. split; [discriminate|].
      exists []. now split; [|left].
  - right. split; [now intros []|]. split; [discriminate|].
    exists []. now split; [|left].
Qed.

(** X9.  [_publish] resolves exactly when the transfer it issued (the create
    after a query that found nothing, the update after a query that found
    the extension without the manifest's version) resolved; exactly then it
    prints the success message, and its calls are then the prelude, the
    transfer and the success message as the last call. *)
Theorem X9_success_iff_transfer_resolved :
  (snd (_publish env packagePath pat m) = Resolved tt
   <-> transfer_resolved env packagePath pat m)
  /\ (In (success_log m) (fst (_publish env packagePath pat m))
      <-> transfer_resolved env packagePath pat m)
  /\ (transfer_resolved env packagePath pat m ->
      exists transfer,
        is_transfer transfer = true
        /\ fst (_publish env packagePath pat m)
           = (publish_prelude packagePath pat m
              ++ [transfer; success_log m])%list).
Proof.
  destruct _publish_cases
    as [(Hres & tr & Htr & Hrun)|(Hno & Hsnd & tail & Hfst & Htail)].
  - rewrite Hrun. cbn [fst snd]. split; [now split|]. split.
    + split; [now intros _|]. intros _. apply in_or_app. right.
      right. now left.
    + intros _. now exists tr.
  - split; [split; [intros H; now apply Hsnd in H | intros H; now apply Hno in H]|].
    split; [|intros H; now apply Hno in H].
    split; [|intros H; now apply Hno in H].
    rewrite Hfst. intros [Hin|Hin]%in_app_or.
    + now apply success_log_not_in_prelude in Hin.
    + destruct Htail as [->|(tr & Htr & ->)]; [destruct Hin|].
      destruct Hin as [->|[]]. discriminate Htr.
Qed.

End PublishMore.

(** ** Version bump and source resolution, continued *)

Lemma strict_neq_false (a b : value) : strict_neq a b = false <-> a = b.
Proof.
  destruct a as [x| |], b as [y| |]; cbn; split; try congruence; try easy.
  - intros H. apply negb_false_iff, String.eqb_eq in H. now subst.
  - intros [= ->]. now rewrite String.eqb_refl.
Qed.

(** The shape of every trace of [_publish]. *)
Lemma _publish_trace (env : Env) (packagePath pat : string) (m : Manifest) :
  exists tail,
    fst (_publish env packagePath pat m)
    = (publish_prelude packagePath pat m ++ tail)%list
    /\ (tail = []
        \/ exists transfer,
             (transfer = EvCreateExtension packagePath
              \/ transfer = EvUpdateExtension packagePath (publisher m) (name m))
             /\ (tail = [transfer] \/ tail = [transfer; success_log m])).
Proof.
  unfold _publish, publish_prelude, success_log. chain.
  destruct (getExtension env pat (publisher m) (name m)) as [[ext|]|err|].
  - destruct (has_version ext m); [exists []; auto|].
    destruct (updateExtension env pat packagePath (publisher m) (name m))
      as [[]|e|]; cbn [fst]; eexists; (split; [reflexivity|]); right;
      eexists; (split; [right; reflexivity|]); auto.
  - destruct (createExtension env pat packagePath) as [[]|e|]; cbn [fst];
      eexists; (split; [reflexivity|]); right;
      eexists; (split; [left; reflexivity|]); auto.
  - destruct (has_status err 404); [|exists []; auto].
    destruct (createExtension env pat packagePath) as [[]|e|]; cbn [fst];
      eexists; (split; [reflexivity|]); right;
      eexists; (split; [left; reflexivity|]); auto.
  - exists []. auto.
Qed.

Section PublishEntryMore.

Variable JSON_parse : string -> error + Manifest.
Variable utf8_toString : list byte -> string.
Variable semver_valid : string -> option string.
Variable semver_inc : string -> string -> option string.

Local Abbreviation readManifestFromPackage' :=
  (readManifestFromPackage JSON_parse utf8_toString).
Local Abbreviation versionBump' := (versionBump semver_valid semver_inc).
Local Abbreviation publish_promise' :=
  (publish_promise JSON_parse utf8_toString semver_valid semver_inc).
Local Abbreviation publish' :=
  (publish JSON_parse utf8_toString semver_valid semver_inc).

Variable env : Env.

Lemma versionBump_calls (cwd directive : option string) :
  let dir := default (process_cwd env) cwd in
  let bump := versionBump' env cwd directive in
  fst bump = []
  \/ fst bump = [EvReadManifest (Some dir) (Some false)]
  \/ exists m next,
       readManifest env (Some dir) (Some false) = Resolved m
       /\ next <> version m
       /\ bump = ([EvReadManifest (Some dir) (Some false);
                   EvWriteManifest dir (set_version m next)],
                  writeManifest env dir (set_version m next)).
Proof.
  cbn zeta. unfold versionBump.
  destruct (truthy directive) as [d|]; [|now left].
  chain. destruct (readManifest env _ _) as [m| |]; [|now right; left ..].
  assert (Hwrite : forall next,
    let r := if strict_neq next (version m)
             then ([EvWriteManifest (default (process_cwd env) cwd)
                      (set_version m next)],
                   writeManifest env (default (process_cwd env) cwd)
                     (set_version m next))
             else ([], Resolved tt) in
    fst r = [] \/
    (next <> version m
     /\ r = ([EvWriteManifest (default (process_cwd env) cwd)
                (set_version m next)],
             writeManifest env (default (process_cwd env) cwd)
               (set_version m next)))).
  { intros next. cbn zeta. destruct (strict_neq next (version m)) eqn:E;
      [right|now left].
    split; [|reflexivity]. intros Heq. apply strict_neq_false in Heq.
    congruence. }
  destruct (is_bump_keyword d).
  - specialize (Hwrite (of_nullable (semver_inc_slot semver_inc (version m) d))).
    cbn zeta in Hwrite. cbn [app].
    destruct (if strict_neq _ _ then _ else _) as [t o].
    destruct Hwrite as [Ht|[Hne [= -> ->]]]; cbn [fst] in *.
    + subst t. right. left. now destruct o as [[]| |].
    + right. right. exists m, (of_nullable (semver_inc_slot semver_inc (version m) d)).
      split; [reflexivity|]. split; [assumption|].
      now destruct (writeManifest env _ _) as [[]| |].
  - destruct (truthy (semver_valid d)) as [u|]; [|now right; left].
    specialize (Hwrite (VStr u)). cbn zeta in Hwrite. cbn [app].
    destruct (if strict_neq _ _ then _ else _) as [t o].
    destruct Hwrite as [Ht|[Hne [= -> ->]]]; cbn [fst] in *.
    + subst t. right. left. now destruct o as [[]| |].
    + right. right. exists m, (VStr u).
      split; [reflexivity|]. split; [assumption|].
      now destruct (writeManifest env _ _) as [[]| |].
Qed.


(** X10.  [versionBump] reads the manifest at most once and writes it at
    most once: its calls are none, or the read alone, or the read followed
    by one write to the same directory of a manifest that has the publisher,
    the name and the proposed-API flag of the one just read and a version
    that differs from the one read; the outcome is then that of the
    write. *)
Theorem X10_version_bump_calls (cwd directive : option string) :
  let dir := default (process_cwd env) cwd in
  let bump := versionBump' env cwd directive in
  fst bump = []
  \/ fst bump = [EvReadManifest (Some dir) (Some false)]
  \/ exists m next,
       readManifest env (Some dir) (Some false) = Resolved m
       /\ next <> version m
       /\ let written :=
            {| publisher := publisher m; name := name m; version := next;
               enableProposedApi := enableProposedApi m |} in
          bump = ([EvReadManifest (Some dir) (Some false);
                   EvWriteManifest dir written],
                  writeManifest env dir written).
Proof. exact (versionBump_calls cwd directive). Qed.

Lemma publish_unfold (options : IPublishOptions) (t : list event)
  (o : outcome IPackageResult) :
  publish_promise' env options = Some (t, o) ->
  publish' env options
  = match o with
    | Resolved r =>
        ((t ++ fst (publish_then env options r))%list,
         snd (publish_then env options r))
    | Rejected e => (t, Rejected e)
    | Pending => (t, Pending)
    end.
Proof.
  intros Hp. unfold publish. rewrite Hp. chain.
  destruct o as [r|e|]; try reflexivity.
  now destruct (publish_then env options r).
Qed.

Lemma publish_then_unfold (options : IPublishOptions) (r : IPackageResult) :
  enableProposedApi (manifest r) = false ->
  publish_then env options r
  = match snd (publish_pat env options (manifest r)) with
    | Resolved pat =>
        ((fst (publish_pat env options (manifest r))
          ++ fst (_publish env (packagePath r) pat (manifest r)))%list,
         snd (_publish env (packagePath r) pat (manifest r)))
    | Rejected e => (fst (publish_pat env options (manifest r)), Rejected e)
    | Pending => (fst (publish_pat env options (manifest r)), Pending)
    end.
Proof.
  intros Hflag. unfold publish_then. rewrite Hflag. chain.
  destruct (publish_pat env options (manifest r)) as [t [pat|e|]];
    try reflexivity.
  cbn [fst snd]. now destruct (_publish env (packagePath r) pat (manifest r)).
Qed.

Lemma publish_pat_cases (options : IPublishOptions) (m : Manifest) :
  match truthy (opt_pat options) with
  | Some token => publish_pat env options m = ([], Resolved token)
  | None =>
      fst (publish_pat env options m) = [EvGetPublisher (VStr (publisher m))]
      /\ snd (publish_pat env options m)
         = match getPublisher env (VStr (publisher m)) with
           | Resolved p => Resolved (publisher_pat p)
           | Rejected e => Rejected e
           | Pending => Pending
           end
  end.
Proof.
  unfold publish_pat. destruct (truthy (opt_pat options)); [reflexivity|].
  chain. now destruct (getPublisher env _).
Qed.

(** A property of single calls holds of everything [_publish] issues when
    it holds of the calls it can issue. *)
Lemma forallb__publish (P : event -> bool) (packagePath pat : string)
  (m : Manifest) :
  forallb P (publish_prelude packagePath pat m) = true ->
  P (EvCreateExtension packagePath) = true ->
  P (EvUpdateExtension packagePath (publisher m) (name m)) = true ->
  P (success_log m) = true ->
  forallb P (fst (_publish env packagePath pat m)) = true.
Proof.
  intros Hpre Hc Hu Hlog.
  destruct (_publish_trace env packagePath pat m)
    as (tail & -> & [->|(tr & Htr & [->| ->])]);
    rewrite forallb_app, Hpre; cbn [forallb andb]; [reflexivity| |];
    destruct Htr as [-> | ->]; now rewrite ?Hc, ?Hu, ?Hlog.
Qed.

Lemma forallb_publish_then (P : event -> bool) (options : IPublishOptions)
  (r : IPackageResult) :
  forallb P (fst (publish_pat env options (manifest r))) = true ->
  (forall pat,
     snd (publish_pat env options (manifest r)) = Resolved pat ->
     forallb P (fst (_publish env (packagePath r) pat (manifest r))) = true) ->
  forallb P (fst (publish_then env options r)) = true.
Proof.
  intros Hpat Hpub. destruct (enableProposedApi (manifest r)) eqn:Hflag.
  - unfold publish_then. now rewrite Hflag.
  - rewrite publish_then_unfold by assumption.
    destruct (snd (publish_pat env options (manifest r))) as [pat|e|];
      cbn [fst]; try assumption.
    rewrite forallb_app, Hpat. now apply Hpub.
Qed.

Lemma forallb_publish (P : event -> bool) (options : IPublishOptions) :
  (forall t o, publish_promise' env options = Some (t, o) ->
     forallb P t = true) ->
  (forall t r, publish_promise' env options = Some (t, Resolved r) ->
     forallb P (fst (publish_then env options r)) = true) ->
  forallb P (fst (publish' env options)) = true.
Proof.
  intros Hpromise Hthen.
  destruct (publish_promise' env options) as [[t o]|] eqn:Hp.
  - rewrite (publish_unfold options t o Hp).
    specialize (Hpromise t o eq_refl).
    destruct o as [r|e|]; cbn [fst]; try assumption.
    rewrite forallb_app, Hpromise. now apply (Hthen t).
  - unfold publish. now rewrite Hp.
Qed.

(** With a package path and no version directive, the promise is the scan
    of that archive, paired with the path as given. *)
Lemma publish_promise_archive (options : IPublishOptions) (path : string) :
  truthy (opt_packagePath options) = Some path ->
  is_truthy (opt_version options) = false ->
  publish_promise' env options
  = Some ([EvYauzlOpen path],
          match snd (readManifestFromPackage' env path) with
          | Resolved m => Resolved {| manifest := m; packagePath := path |}
          | Rejected e => Rejected e
          | Pending => Pending
          end).
Proof.
  intros Hp Hv. unfold publish_promise. rewrite Hp, Hv.
  unfold readManifestFromPackage. chain. cbn [snd].
  destruct (yauzl_open env path) as [e|evs]; [reflexivity|].
  now destruct (promise_outcome _).
Qed.


Lemma forallb_impl {A : Type} (P Q : A -> bool) (l : list A) :
  (forall x, P x = true -> Q x = true) ->
  forallb P l = true -> forallb Q l = true.
Proof.
  intros H. induction l as [|x l IH]; [reflexivity|]. cbn.
  intros [Hx Hl]%andb_true_iff. now rewrite (H x Hx), IH.
Qed.

(** Resolving the source calls the archive reader, the manifest store, the
    temporary-name generator and the packager, nothing else. *)
Lemma publish_promise_calls (options : IPublishOptions) (t : list event)
  (o : outcome IPackageResult) :
  publish_promise' env options = Some (t, o) ->
  forallb is_source_call t = true.
Proof.
  unfold publish_promise. destruct (truthy (opt_packagePath options)) as [p|].
  - destruct (is_truthy _); [discriminate|].
    unfold readManifestFromPackage. chain.
    destruct (yauzl_open env p) as [e|evs]; [now intros [= <- <-]|].
    now destruct (promise_outcome _); intros [= <- <-].
  - pose proof (versionBump_calls (opt_cwd options) (opt_version options))
      as Hb. cbn zeta in Hb.
    unfold mbind at 1. unfold M_bind.
    destruct (versionBump' env _ _) as [tb ob]. cbn [fst] in Hb.
    assert (Htb : forallb is_source_call tb = true).
    { destruct Hb as [->|[->|(m & next & _ & _ & [= -> _])]]; reflexivity. }
    chain. destruct ob as [[]|e|]; [|now intros [= <- <-] ..].
    destruct (tmpName env) as [path|e|]; intros [= <- <-];
      now rewrite forallb_app, Htb.
Qed.

(** X11.  With a package path and no version directive, [publish] never
    calls the manifest store, the temporary-name generator or the packager,
    and every call that names an archive (opening it, streaming it,
    transferring it) names the path given in the options. *)
Theorem X11_archive_path_used_verbatim
  (options : IPublishOptions) (path : string) :
  truthy (opt_packagePath options) = Some path ->
  is_truthy (opt_version options) = false ->
  forallb (fun ev => uses_archive path ev && negb (is_build_call ev))
    (fst (publish' env options)) = true.
Proof.
  intros Hp Hv. apply forallb_publish.
  - intros t o. rewrite (publish_promise_archive options path Hp Hv).
    intros [= <- _]. cbn. now rewrite String.eqb_refl.
  - intros t r. rewrite (publish_promise_archive options path Hp Hv).
    generalize (snd (readManifestFromPackage' env path)).
    intros o [= _ Hr]. destruct o as [m| |]; try discriminate.
    injection Hr as <-. apply forallb_publish_then.
    + pose proof (publish_pat_cases options m) as Hpat. cbn [manifest].
      destruct (truthy (opt_pat options)); [now rewrite Hpat|].
      destruct Hpat as [-> _]. reflexivity.
    + intros pat _. cbn [manifest packagePath].
      apply forallb__publish; cbn; now rewrite ?String.eqb_refl.
Qed.

(** X12.  With a package path and no version directive, a rejection of the
    archive scan (the archive cannot be opened, holds no manifest entry,
    its manifest cannot be read or parsed) rejects [publish] with the same
    error after the one call that opens the archive: no credential lookup,
    no gallery call. *)
Theorem X12_archive_failure_stops_publish
  (options : IPublishOptions) (path : string) (e : error) :
  truthy (opt_packagePath options) = Some path ->
  is_truthy (opt_version options) = false ->
  snd (readManifestFromPackage' env path) = Rejected e ->
  publish' env options = ([EvYauzlOpen path], Rejected e).
Proof.
  intros Hp Hv Hscan.
  rewrite (publish_unfold options _ _ (publish_promise_archive options path Hp Hv)).
  now rewrite Hscan.
Qed.

(** X13.  With a token among the options, [publish] never looks up
    credentials, and every gallery client it builds is built from that
    token. *)
Theorem X13_explicit_token_used (options : IPublishOptions) (token : string) :
  truthy (opt_pat options) = Some token ->
  forallb (fun ev => uses_token token ev && negb (is_credential_lookup ev))
    (fst (publish' env options)) = true.
Proof.
  intros Htok. apply forallb_publish.
  - intros t o Hp. apply (forallb_impl is_source_call).
    + now intros [].
    + apply (publish_promise_calls options t o Hp).
  - intros t r _. apply forallb_publish_then.
    + pose proof (publish_pat_cases options (manifest r)) as Hpat.
      rewrite Htok in Hpat. now rewrite Hpat.
    + intros pat. pose proof (publish_pat_cases options (manifest r)) as Hpat.
      rewrite Htok in Hpat. rewrite Hpat. intros [= <-].
      apply forallb__publish; cbn; now rewrite ?String.eqb_refl.
Qed.

(** X14.  Without a version directive (absent or empty), [publish] never
    reads or writes the working-directory manifest itself. *)
Theorem X14_no_directive_no_manifest_call (options : IPublishOptions) :
  is_truthy (opt_version options) = false ->
  forallb (fun ev => negb (is_manifest_call ev)) (fst (publish' env options))
  = true.
Proof.
  intros Hv. apply forallb_publish.
  - intros t o. unfold publish_promise.
    destruct (truthy (opt_packagePath options)) as [p|].
    + rewrite Hv. unfold readManifestFromPackage. chain.
      destruct (yauzl_open env p) as [e|evs]; [now intros [= <- <-]|].
      now destruct (promise_outcome _); intros [= <- <-].
    + unfold versionBump. unfold is_truthy in Hv.
      destruct (truthy (opt_version options)); [discriminate|]. chain.
      now destruct (tmpName env) as [path|e|]; intros [= <- <-].
  - intros t r _. apply forallb_publish_then.
    + pose proof (publish_pat_cases options (manifest r)) as Hpat.
      destruct (truthy (opt_pat options)); [now rewrite Hpat|].
      destruct Hpat as [-> _]. reflexivity.
    + intros pat _. now apply forallb__publish.
Qed.

(** X15.  On the build path, a version directive that is neither a bump
    keyword nor a version [semver] accepts rejects [publish] with
    "Invalid version <directive>" right after the manifest has been read:
    nothing is written, no archive is built, no gallery call is made. *)
Theorem X15_invalid_directive_stops_publish
  (options : IPublishOptions) (directive : string) (m : Manifest) :
  truthy (opt_packagePath options) = None ->
  truthy (opt_version options) = Some directive ->
  is_bump_keyword directive = false ->
  truthy (semver_valid directive) = None ->
  let dir := default (process_cwd env) (opt_cwd options) in
  readManifest env (Some dir) (Some false) = Resolved m ->
  publish' env options
  = ([EvReadManifest (Some dir) (Some false)],
     Rejected (ErrString ("Invalid version " ++ directive))).
Proof.
  intros Hp Hv Hkw Hvalid dir Hread.
  unfold publish, publish_promise. rewrite Hp. unfold versionBump.
  fold dir. rewrite Hv. chain. rewrite Hread, Hkw, Hvalid. reflexivity.
Qed.

(** X16.  On the build path, any rejection of the version bump (the
    manifest cannot be read or written, the directive is invalid) rejects
    [publish] with the same error after the calls of the bump alone: no
    temporary name, no packager, no gallery call. *)
Theorem X16_failed_bump_stops_publish
  (options : IPublishOptions) (e : error) :
  truthy (opt_packagePath options) = None ->
  snd (versionBump' env (opt_cwd options) (opt_version options))
  = Rejected e ->
  publish' env options
  = (fst (versionBump' env (opt_cwd options) (opt_version options)),
     Rejected e).
Proof.
  intros Hp Hb. unfold publish, publish_promise. rewrite Hp.
  destruct (versionBump' env _ _) as [t o]. cbn [fst snd] in *. subst o.
  reflexivity.
Qed.

(** X17.  An explicit version directive is compared and written in the
    canonical form [semver.valid] returns for it, not as typed: when the
    manifest already has that canonical version nothing is written and the
    bump resolves; otherwise the manifest read is written back with that
    canonical version and its other fields unchanged. *)
Theorem X17_explicit_version_canonical
  (cwd : option string) (directive canonical : string) (m : Manifest) :
  is_bump_keyword directive = false ->
  truthy (Some directive) = Some directive ->
  semver_valid directive = Some canonical ->
  canonical <> "" ->
  let dir := default (process_cwd env) cwd in
  readManifest env (Some dir) (Some false) = Resolved m ->
  let written :=
    {| publisher := publisher m; name := name m; version := VStr canonical;
       enableProposedApi := enableProposedApi m |} in
  (version m = VStr canonical ->
   versionBump' env cwd (Some directive)
   = ([EvReadManifest (Some dir) (Some false)], Resolved tt))
  /\ (version m <> VStr canonical ->
      versionBump' env cwd (Some directive)
      = ([EvReadManifest (Some dir) (Some false);
          EvWriteManifest dir written],
         writeManifest env dir written)).
Proof.
  intros Hkw Htruthy Hvalid Hne dir Hread written.
  assert (Hcanon : truthy (Some canonical) = Some canonical)
    by (destruct canonical; [congruence|reflexivity]).
  split; intros Hm; unfold versionBump; fold dir; rewrite Htruthy; chain;
    rewrite Hread, Hkw, Hvalid, Hcanon.
  - assert (E : strict_neq (VStr canonical) (version m) = false)
      by now apply strict_neq_false.
    now rewrite E.
  - assert (E : strict_neq (VStr canonical) (version m) = true).
    { destruct (strict_neq _ _) eqn:E; [reflexivity|].
      apply strict_neq_false in E. congruence. }
    rewrite E. cbn [app].
    change (set_version m (VStr canonical)) with written.
    now destruct (writeManifest env dir written) as [[]|e'|].
Qed.

(** X18.  Without a token among the options, a rejected credential lookup
    rejects [publish] with the lookup's error right after the lookup: no
    gallery client is built and no gallery call is made. *)
Theorem X18_credential_failure_stops_publish
  (options : IPublishOptions) (t : list event) (r : IPackageResult)
  (e : error) :
  publish_promise' env options = Some (t, Resolved r) ->
  enableProposedApi (manifest r) = false ->
  truthy (opt_pat options) = None ->
  getPublisher env (VStr (publisher (manifest r))) = Rejected e ->
  publish' env options
  = ((t ++ [EvGetPublisher (VStr (publisher (manifest r)))])%list,
     Rejected e).
Proof.
  intros Hp Hflag Htok Hcred.
  rewrite (publish_unfold options t _ Hp), publish_then_unfold by assumption.
  pose proof (publish_pat_cases options (manifest r)) as Hpat.
  rewrite Htok in Hpat. destruct Hpat as [Ht Ho]. rewrite Ho, Hcred, Ht.
  reflexivity.
Qed.

(** X19.  Whatever the options and the collaborators' answers, [publish]
    sends the gallery nothing, or one query, or one query followed by one
    transfer; it never deletes. *)
Theorem X19_publish_gallery_calls (options : IPublishOptions) :
  let calls := List.filter is_network (fst (publish' env options)) in
  calls = []
  \/ exists query,
       is_query query = true
       /\ (calls = [query]
           \/ exists transfer,
                is_transfer transfer = true /\ calls = [query; transfer]).
Proof.
  cbn zeta.
  assert (Hoff : forall t : list event,
            forallb is_source_call t = true -> List.filter is_network t = []).
  { induction t as [|ev t IH]; [reflexivity|]. cbn.
    intros [Hev Ht]%andb_true_iff. rewrite (IH Ht). now destruct ev. }
  destruct (publish_promise' env options) as [[t o]|] eqn:Hp;
    [|left; unfold publish; now rewrite Hp].
  rewrite (publish_unfold options t o Hp).
  pose proof (Hoff t (publish_promise_calls options t o Hp)) as Ht.
  destruct o as [r|e|]; cbn [fst]; [|now left ..].
  rewrite List.filter_app, Ht. cbn [app].
  destruct (enableProposedApi (manifest r)) eqn:Hflag.
  { left. unfold publish_then. now rewrite Hflag. }
  rewrite publish_then_unfold by assumption.
  assert (Hpat : List.filter is_network
                   (fst (publish_pat env options (manifest r))) = []).
  { pose proof (publish_pat_cases options (manifest r)) as H.
    destruct (truthy (opt_pat options)); [now rewrite H|].
    destruct H as [-> _]. reflexivity. }
  destruct (snd (publish_pat env options (manifest r))) as [pat|e|];
    cbn [fst]; [|now left ..].
  rewrite List.filter_app, Hpat. cbn [app].
  rewrite (_publish_network env (packagePath r) pat (manifest r)).
  right. exists (EvGetExtension (publisher (manifest r)) (name (manifest r))).
  split; [reflexivity|].
  destruct (getExtension env pat _ _) as [[ext|]|err|].
  - destruct (has_version ext (manifest r)); [now left|].
    right. eexists. split; [|reflexivity]. reflexivity.
  - right. eexists. split; [|reflexivity]. reflexivity.
  - destruct (has_status err 404); [|now left].
    right. eexists. split; [|reflexivity]. reflexivity.
  - now left.
Qed.

End PublishEntryMore.

(** ** Unpublish, continued *)

Lemma before_first_absent (sep : ascii) (s : string) :
  has_char sep s = false -> before_first sep s = s.
Proof.
  induction s as [|c r IH]; cbn; [reflexivity|].
  destruct (Ascii.eqb c sep); cbn; [discriminate|].
  intros H. now rewrite IH.
Qed.

(** Cutting at the first separator loses nothing but the separator. *)
Lemma before_after_first (sep : ascii) (s : string) :
  has_char sep s = true ->
  before_first sep s ++ String sep (after_first sep s) = s.
Proof.
  induction s as [|c r IH]; cbn; [discriminate|].
  destruct (Ascii.eqb c sep) eqn:E; cbn.
  - intros _. apply Ascii.eqb_eq in E. now subst.
  - intros H.
    change (String c (before_first sep r ++ String sep (after_first sep r))
            = String c r).
    now rewrite IH.
Qed.

Section UnpublishMore.

Variable env : Env.
Variable options : IPublishOptions.

Lemma unpublish_unfold (t0 : list event) (publisher name : value) :
  unpublish_identity env options = (t0, Resolved (publisher, name)) ->
  unpublish env options
  = ((t0 ++ fst (unpublish_then env options (publisher, name)))%list,
     snd (unpublish_then env options (publisher, name))).
Proof.
  intros Hid. unfold unpublish. rewrite Hid. chain.
  now destruct (unpublish_then env options (publisher, name)).
Qed.

Lemma unpublish_identity_quiet :
  forallb (fun ev => is_manifest_call ev)
    (fst (unpublish_identity env options)) = true.
Proof.
  destruct (unpublish_identity_trace env options) as [-> | ->]; reflexivity.
Qed.

(** Every trace of the callback of [unpublish]. *)
Lemma unpublish_then_cases (publisher name : value) :
  let prompt := confirm_prompt (template publisher ++ "." ++ template name) in
  let lookup := fst (unpublish_pat env options publisher) in
  let run := unpublish_then env options (publisher, name) in
  (exists answer pat,
     read env prompt = Resolved answer /\ is_yes answer = true
     /\ snd (unpublish_pat env options publisher) = Resolved pat
     /\ exists tail,
          fst run
          = (lookup ++ [EvRead prompt; EvGetGalleryAPI pat;
                        EvDeleteExtension publisher name] ++ tail)%list
          /\ forallb (fun ev => negb (is_network ev)) tail = true
          /\ forallb (uses_token pat) tail = true
          /\ forallb (fun ev => negb (is_credential_lookup ev)) tail = true)
  \/ (fst run = (lookup ++ [EvRead prompt])%list
      /\ snd run
         = match read env prompt with
           | Resolved answer =>
               if is_yes answer
               then match snd (unpublish_pat env options publisher) with
                    | Resolved _ => Pending
                    | Rejected e => Rejected e
                    | Pending => Pending
                    end
               else Rejected (ErrString "Aborted")
           | Rejected e => Rejected e
           | Pending => Pending
           end
      /\ (forall answer pat,
            read env prompt = Resolved answer -> is_yes answer = true ->
            snd (unpublish_pat env options publisher) <> Resolved pat)).
Proof.
  cbn zeta. unfold unpublish_then. chain.
  destruct (read env _) as [answer|e|] eqn:Hread.
  - destruct (is_yes answer) eqn:Hyes.
    + destruct (snd (unpublish_pat env options publisher)) as [pat|e|] eqn:Hpat.
      * left. exists answer, pat.
        split; [reflexivity|]. split; [assumption|]. split; [reflexivity|].
        destruct (deleteExtension env pat publisher name) as [[]|e|];
          cbn [fst snd]; eexists; (split; [reflexivity|]);
          now cbn.
      * right. cbn [fst snd]. rewrite app_nil_r.
        repeat split. intros a p [= <-] _. discriminate.
      * right. cbn [fst snd]. rewrite app_nil_r.
        repeat split. intros a p [= <-] _. discriminate.
    + right. cbn [fst snd]. rewrite app_nil_r.
      repeat split. intros a p [= <-]. congruence.
  - right. cbn [fst snd]. repeat split. discriminate.
  - right. cbn [fst snd]. repeat split. discriminate.
Qed.


(** X20.  Whatever the options and the answers of the collaborators, a
    delete call for [publisher].[name] is only ever issued for the identity
    [unpublish] resolved, after the prompt naming exactly that identity was
    answered "y" or "Y". *)
Theorem X20_delete_only_after_matching_prompt (publisher name : value) :
  In (EvDeleteExtension publisher name) (fst (unpublish env options)) ->
  snd (unpublish_identity env options) = Resolved (publisher, name)
  /\ exists answer,
       read env (confirm_prompt (template publisher ++ "." ++ template name))
       = Resolved answer
       /\ (answer = "y" \/ answer = "Y").
Proof.
  intros Hin.
  destruct (unpublish_identity env options) as [t0 [[p n]|e|]] eqn:Hid.
  - rewrite (unpublish_unfold t0 p n Hid) in Hin. cbn [fst] in Hin.
    apply in_app_or in Hin as [Hin|Hin].
    { pose proof unpublish_identity_quiet as Hq. rewrite Hid in Hq.
      cbn [fst] in Hq. rewrite forallb_forall in Hq.
      now specialize (Hq _ Hin). }
    destruct (unpublish_then_cases p n)
      as [(answer & pat & Hread & Hyes & Hpat & tail & Ht & Hnet & _)
         |(Ht & _)]; cbn zeta in *; rewrite Ht in Hin.
    + apply in_app_or in Hin as [Hin|Hin].
      { rewrite unpublish_pat_trace in Hin.
        destruct (truthy (opt_pat options)); cbn in Hin; [easy|].
        destruct Hin as [Hin|[]]. discriminate. }
      cbn in Hin. destruct Hin as [Hin|[Hin|[Hin|Hin]]]; try discriminate.
      * injection Hin as <- <-. split; [reflexivity|].
        exists answer. split; [assumption|]. now apply is_yes_spec.
      * rewrite forallb_forall in Hnet. now specialize (Hnet _ Hin).
    + apply in_app_or in Hin as [Hin|Hin].
      * rewrite unpublish_pat_trace in Hin.
        destruct (truthy (opt_pat options)); cbn in Hin; [easy|].
        destruct Hin as [Hin|[]]. discriminate.
      * cbn in Hin. destruct Hin as [Hin|[]]. discriminate.
  - unfold unpublish in Hin. rewrite Hid in Hin. cbn in Hin.
    pose proof unpublish_identity_quiet as Hq. rewrite Hid in Hq.
    cbn [fst] in Hq. rewrite forallb_forall in Hq.
    now specialize (Hq _ Hin).
  - unfold unpublish in Hin. rewrite Hid in Hin. cbn in Hin.
    pose proof unpublish_identity_quiet as Hq. rewrite Hid in Hq.
    cbn [fst] in Hq. rewrite forallb_forall in Hq.
    now specialize (Hq _ Hin).
Qed.

(** X21.  [unpublish] never queries the gallery and never transfers
    anything: it sends the gallery nothing, or exactly one delete. *)
Theorem X21_unpublish_gallery_calls :
  List.filter is_network (fst (unpublish env options)) = []
  \/ exists publisher name,
       List.filter is_network (fst (unpublish env options))
       = [EvDeleteExtension publisher name].
Proof.
  assert (Hquiet : forall t : list event,
            forallb (fun ev => negb (is_network ev)) t = true ->
            List.filter is_network t = []).
  { induction t as [|ev t IH]; [reflexivity|]. cbn.
    intros [Hev Ht]%andb_true_iff. rewrite (IH Ht).
    now destruct (is_network ev). }
  assert (Ht0 : List.filter is_network (fst (unpublish_identity env options))
                = []).
  { destruct (unpublish_identity_trace env options) as [-> | ->];
      reflexivity. }
  destruct (unpublish_identity env options) as [t0 [[p n]|e|]] eqn:Hid;
    cbn [fst] in Ht0.
  - rewrite (unpublish_unfold t0 p n Hid). cbn [fst].
    rewrite List.filter_app, Ht0. cbn [app].
    destruct (unpublish_then_cases p n)
      as [(answer & pat & _ & _ & _ & tail & Ht & Hnet & _)|(Ht & _)];
      cbn zeta in *; rewrite Ht, List.filter_app, unpublish_pat_offline.
    + right. exists p, n. cbn. now rewrite (Hquiet tail Hnet).
    + now left.
  - left. unfold unpublish. rewrite Hid. exact Ht0.
  - left. unfold unpublish. rewrite Hid. exact Ht0.
Qed.

(** X22.  An identifier without a '.' is taken whole as the publisher and
    leaves the name undefined: the prompt then asks about
    "<identifier>.undefined". *)
Theorem X22_identifier_without_separator (id : string) :
  opt_id options = Some id ->
  id <> "" ->
  has_char "." id = false ->
  unpublish_identity env options = ([], Resolved (VStr id, VUndefined))
  /\ In (EvRead (confirm_prompt (id ++ ".undefined")))
       (fst (unpublish env options)).
Proof.
  intros Hid Hne Hdot.
  assert (Hidentity : unpublish_identity env options
                      = ([], Resolved (VStr id, VUndefined))).
  { unfold unpublish_identity. rewrite Hid.
    destruct id as [|c r]; [congruence|]. cbn [truthy].
    unfold split_id. rewrite split_unfold, Hdot, before_first_absent
      by assumption.
    reflexivity. }
  split; [assumption|].
  rewrite (unpublish_unfold _ _ _ Hidentity). cbn [fst app].
  destruct (unpublish_then_cases (VStr id) VUndefined)
    as [(answer & pat & _ & _ & _ & tail & -> & _)|(-> & _)]; cbn zeta;
    apply in_or_app; right; now left.
Qed.

(** X23.  For an identifier with exactly one '.', the prompt quotes the
    identifier exactly as given. *)
Theorem X23_prompt_quotes_identifier (id : string) :
  opt_id options = Some id ->
  has_char "." id = true ->
  has_char "." (after_first "." id) = false ->
  In (EvRead (confirm_prompt id)) (fst (unpublish env options)).
Proof.
  intros Hid Hdot Hone.
  assert (Hidentity : unpublish_identity env options
                      = ([], Resolved (VStr (before_first "." id),
                                       VStr (after_first "." id)))).
  { unfold unpublish_identity. rewrite Hid.
    destruct id as [|c r]; [discriminate|]. cbn [truthy].
    now rewrite split_id_spec, (before_first_absent _ (after_first _ _)). }
  rewrite (unpublish_unfold _ _ _ Hidentity). cbn [fst app].
  assert (Hname : template (VStr (before_first "." id)) ++ "."
                  ++ template (VStr (after_first "." id)) = id)
    by apply (before_after_first "." id Hdot).
  destruct (unpublish_then_cases (VStr (before_first "." id))
              (VStr (after_first "." id)))
    as [(answer & pat & _ & _ & _ & tail & -> & _)|(-> & _)]; cbn zeta;
    rewrite Hname; apply in_or_app; right; now left.
Qed.

(** X24.  Without an identifier (absent or empty), the identity is read from
    the manifest of the working directory given in the options; when that
    read is rejected, [unpublish] is rejected with the same error and does
    nothing else: no credential lookup, no prompt, no gallery call. *)
Theorem X24_identity_from_manifest :
  truthy (opt_id options) = None ->
  (forall m,
     readManifest env (opt_cwd options) None = Resolved m ->
     unpublish_identity env options
     = ([EvReadManifest (opt_cwd options) None],
        Resolved (VStr (publisher m), VStr (name m))))
  /\ (forall e,
        readManifest env (opt_cwd options) None = Rejected e ->
        unpublish env options
        = ([EvReadManifest (opt_cwd options) None], Rejected e)).
Proof.
  intros Hid. split.
  - intros m Hread. unfold unpublish_identity. rewrite Hid. chain.
    now rewrite Hread.
  - intros e Hread. unfold unpublish, unpublish_identity. rewrite Hid. chain.
    now rewrite Hread.
Qed.

(** X25.  Without a token among the options, when the user confirms but the
    credential lookup was rejected, [unpublish] is rejected with the
    lookup's error: no gallery client is built and nothing is deleted. *)
Theorem X25_credential_failure_after_confirmation
  (t0 : list event) (publisher name : value) (answer : string) (e : error) :
  unpublish_identity env options = (t0, Resolved (publisher, name)) ->
  truthy (opt_pat options) = None ->
  let prompt := confirm_prompt (template publisher ++ "." ++ template name) in
  read env prompt = Resolved answer ->
  answer = "y" \/ answer = "Y" ->
  getPublisher env publisher = Rejected e ->
  unpublish env options
  = ((t0 ++ [EvGetPublisher publisher; EvRead prompt])%list, Rejected e).
Proof.
  intros Hid Htok prompt Hread Hyes Hcred. apply is_yes_spec in Hyes.
  rewrite (unpublish_unfold t0 publisher name Hid).
  unfold unpublish_then, unpublish_pat. fold prompt. rewrite Htok. chain.
  now rewrite Hcred, Hread, Hyes.
Qed.

(** X26.  With a token among the options, [unpublish] never looks up
    credentials, and the gallery client, if one is built, is built from that
    token. *)
Theorem X26_unpublish_explicit_token (token : string) :
  truthy (opt_pat options) = Some token ->
  forallb (fun ev => uses_token token ev && negb (is_credential_lookup ev))
    (fst (unpublish env options)) = true.
Proof.
  intros Htok.
  assert (Ht0 : forallb (fun ev => uses_token token ev
                                   && negb (is_credential_lookup ev))
                  (fst (unpublish_identity env options)) = true).
  { destruct (unpublish_identity_trace env options) as [-> | ->];
      reflexivity. }
  destruct (unpublish_identity env options) as [t0 [[p n]|e|]] eqn:Hid;
    cbn [fst] in Ht0;
    [|unfold unpublish; now rewrite Hid ..].
  rewrite (unpublish_unfold t0 p n Hid). cbn [fst].
  rewrite forallb_app, Ht0. cbn [andb].
  assert (Hpat : unpublish_pat env options p = ([], Resolved token))
    by (unfold unpublish_pat; now rewrite Htok).
  destruct (unpublish_then_cases p n)
    as [(answer & pat & _ & _ & Hsnd & tail & -> & _ & Htail & Hcred)
       |(-> & _)]; cbn zeta in *; rewrite Hpat in *; cbn [fst snd app] in *.
  - injection Hsnd as <-. cbn. rewrite String.eqb_refl. cbn.
    clear - Htail Hcred. induction tail as [|ev tail IH]; [reflexivity|].
    cbn in *. apply andb_true_iff in Htail as [-> Htail].
    apply andb_true_iff in Hcred as [-> Hcred]. now apply IH.
  - reflexivity.
Qed.

End UnpublishMore.

(** ** Listing *)

Section Listing.

Variable lenv : ListEnv.

Lemma list_forEach_all (es : list GalleryExtension) :
  Forall (fun e => versions (extension e) <> []) es ->
  list_forEach lenv es = (map list_log es, Resolved tt).
Proof.
  induction 1 as [|e es He _ IH]; [reflexivity|].
  cbn [list_forEach map]. unfold list_line, list_log, first_version.
  destruct (versions (extension e)) as [|v vs]; [congruence|].
  chain. now rewrite IH.
Qed.

Lemma list_forEach_stops (before after : list GalleryExtension)
  (e : GalleryExtension) :
  Forall (fun e => versions (extension e) <> []) before ->
  versions (extension e) = [] ->
  list_forEach lenv (before ++ e :: after)
  = (map list_log before, Rejected (type_error lenv "version")).
Proof.
  intros Hbefore He.
  induction Hbefore as [|b before Hb _ IH].
  - cbn. unfold list_line. rewrite He. reflexivity.
  - cbn [app list_forEach map]. unfold list_line at 1.
    unfold list_log at 1. unfold first_version.
    destruct (versions (extension b)) as [|v vs]; [congruence|].
    chain. now rewrite IH.
Qed.

Lemma list_unfold (publisher : string) (p : IPublisher)
  (page : QueryResultPage) (others : list QueryResultPage) :
  validatePublisher lenv publisher = None ->
  getPublisher (base_env lenv) (VStr publisher) = Resolved p ->
  queryExtensions lenv (publisher_pat p) list_query
  = Resolved {| results := page :: others |} ->
  let own := List.filter (fun e => String.eqb (publisherName e) publisher)
               (extensions page) in
  list_ lenv publisher
  = Returns ((list_prelude publisher (publisher_pat p)
              ++ map inl (fst (list_forEach lenv own)))%list,
             snd (list_forEach lenv own)).
Proof.
  intros Hvalid Hcred Hquery own. unfold list_. rewrite Hvalid. f_equal.
  unfold lift, call, emit, mbind, L_bind, mret, L_ret. cbn [fst snd map].
  rewrite Hcred, Hquery. cbn [results]. fold own.
  now destruct (list_forEach lenv own).
Qed.

(** X27.  When the publisher name is accepted, the credentials are found
    and the query answers, [list] prints one line "name @ version" for each
    extension of the first result page whose publisher name is exactly the
    one asked for, in the order of the page and with the version of its
    first version record; extensions of other publishers are skipped, with
    or without version records. *)
Theorem X27_list_prints_own_extensions
  (publisher : string) (p : IPublisher) (page : QueryResultPage)
  (others : list QueryResultPage) :
  validatePublisher lenv publisher = None ->
  getPublisher (base_env lenv) (VStr publisher) = Resolved p ->
  queryExtensions lenv (publisher_pat p) list_query
  = Resolved {| results := page :: others |} ->
  let own := List.filter (fun e => String.eqb (publisherName e) publisher)
               (extensions page) in
  Forall (fun e => versions (extension e) <> []) own ->
  list_ lenv publisher
  = Returns ((list_prelude publisher (publisher_pat p)
              ++ map (fun e => inl (list_log e)) own)%list,
             Resolved tt).
Proof.
  intros Hvalid Hcred Hquery own Hown.
  rewrite (list_unfold publisher p page others Hvalid Hcred Hquery).
  fold own. rewrite (list_forEach_all own Hown). cbn [fst snd].
  now rewrite map_map.
Qed.

(** X28.  When one of the publisher's own extensions has no version record,
    [list] prints the lines of the extensions before it and is then
    rejected with the engine's type error: the extensions after it are not
    printed. *)
Theorem X28_list_stops_at_versionless_extension
  (publisher : string) (p : IPublisher) (page : QueryResultPage)
  (others : list QueryResultPage) (before after : list GalleryExtension)
  (e : GalleryExtension) :
  validatePublisher lenv publisher = None ->
  getPublisher (base_env lenv) (VStr publisher) = Resolved p ->
  queryExtensions lenv (publisher_pat p) list_query
  = Resolved {| results := page :: others |} ->
  List.filter (fun e => String.eqb (publisherName e) publisher)
    (extensions page)
  = (before ++ e :: after)%list ->
  Forall (fun e => versions (extension e) <> []) before ->
  versions (extension e) = [] ->
  list_ lenv publisher
  = Returns ((list_prelude publisher (publisher_pat p)
              ++ map (fun e => inl (list_log e)) before)%list,
             Rejected (type_error lenv "version")).
Proof.
  intros Hvalid Hcred Hquery Hown Hbefore He.
  rewrite (list_unfold publisher p page others Hvalid Hcred Hquery).
  cbn zeta. rewrite Hown, (list_forEach_stops before after e Hbefore He).
  cbn [fst snd]. now rewrite map_map.
Qed.

End Listing.

(** ** The further properties on concrete inputs *)

Lemma X1_witness :
  readManifestFromPackage Demo.parse Demo.toString
    (DemoMore.env_archive
       (ZipEntry (Demo.entry 1 "extension/package.json")
        :: DemoMore.trace_unreadable_entry))
    "tool.vsix"
  = ([EvYauzlOpen "tool.vsix"], Rejected DemoMore.disk_error).
Proof.
  apply (X1_open_read_stream_error Demo.parse Demo.toString _ "tool.vsix" []
           DemoMore.trace_unreadable_entry []
           (Demo.entry 1 "extension/package.json") DemoMore.disk_error);
    reflexivity.
Defined.

Lemma X2_witness :
  readManifestFromPackage Demo.parse Demo.toString
    (DemoMore.env_archive
       (ZipEntry (Demo.entry 1 "extension/package.json")
        :: DemoMore.trace_broken_stream))
    "tool.vsix"
  = ([EvYauzlOpen "tool.vsix"], Rejected DemoMore.disk_error).
Proof.
  apply (X2_stream_error_rejects Demo.parse Demo.toString _ "tool.vsix" []
           DemoMore.trace_broken_stream
           [StreamData 1 (DemoMore.bytes "}"); StreamEnd 1]
           (Demo.entry 1 "extension/package.json") [DemoMore.bytes "{"]
           DemoMore.disk_error);
    reflexivity.
Defined.

Lemma X3_witness :
  exists evs,
    yauzl_open Demo.env "tool.vsix" = inr evs
    /\ existsb is_match_event evs = true.
Proof.
  apply (X3_resolves_only_from_manifest_entry Demo.parse Demo.toString
           Demo.env "tool.vsix" Demo.acme_tool).
  reflexivity.
Defined.

Lemma X4_witness :
  promise_outcome
    (zip_run Demo.parse Demo.toString zip_init
       (Demo.trace_with_manifest
        ++ [StreamEnd 1; StreamError 1 DemoMore.disk_error; ZipEnd])%list)
  = Resolved Demo.acme_tool.
Proof.
  apply (X4_settles_once Demo.parse Demo.toString Demo.trace_with_manifest
           [StreamEnd 1; StreamError 1 DemoMore.disk_error; ZipEnd]).
  vm_compute. discriminate.
Defined.

Lemma X5_witness :
  promise_outcome
    (zip_run DemoMore.parse_tag Demo.toString zip_init
       (DemoMore.trace_two_manifests ++ StreamEnd 2 :: [StreamEnd 1])%list)
  = settled_outcome (DemoMore.parse_tag "second").
Proof.
  apply (X5_first_stream_end_decides DemoMore.parse_tag Demo.toString
           DemoMore.trace_two_manifests [StreamEnd 1] 2
           {| buffers := [DemoMore.bytes "second"]; on_error := true;
              on_end := true |});
    reflexivity.
Defined.

Lemma X7_witness :
  snd (_publish
         (DemoMore.env_transfer (Rejected (ErrObject (Some 409%Z) "Conflict")))
         "/tmp/a.vsix" "token" Demo.acme_tool)
  = Rejected (ErrString "acme.tool@1.0.0 already exists.").
Proof.
  apply (X7_conflict_on_transfer
           (DemoMore.env_transfer (Rejected (ErrObject (Some 409%Z) "Conflict")))
           "/tmp/a.vsix" "token" Demo.acme_tool
           (ErrObject (Some 409%Z) "Conflict")).
  - left. split; [|reflexivity]. right.
    exists (ErrObject (Some 404%Z) "Not Found"). split; reflexivity.
  - reflexivity.
Defined.

Lemma X8_witness :
  snd (_publish
         (DemoMore.env_transfer
            (Rejected (ErrObject (Some 401%Z)
                         "TF400813: Invalid Resource (token)")))
         "/tmp/a.vsix" "token" Demo.acme_tool)
  = Rejected (ErrObject (Some 401%Z)
                ("TF400813: Invalid Resource (token)" ++ expired_pat_hint)).
Proof.
  apply (X8_expired_token_hint_on_transfer
           (DemoMore.env_transfer
              (Rejected (ErrObject (Some 401%Z)
                           "TF400813: Invalid Resource (token)")))
           "/tmp/a.vsix" "token" Demo.acme_tool (Some 401%Z)
           "TF400813: " " (token)").
  - left. split; [|reflexivity]. right.
    exists (ErrObject (Some 404%Z) "Not Found"). split; reflexivity.
  - reflexivity.
Defined.

Lemma X9_witness :
  transfer_resolved (DemoMore.env_transfer (Resolved tt)) "/tmp/a.vsix"
    "token" Demo.acme_tool
  /\ exists transfer,
       is_transfer transfer = true
       /\ fst (_publish (DemoMore.env_transfer (Resolved tt)) "/tmp/a.vsix"
                 "token" Demo.acme_tool)
          = (publish_prelude "/tmp/a.vsix" "token" Demo.acme_tool
             ++ [transfer; success_log Demo.acme_tool])%list.
Proof.
  assert (H : transfer_resolved (DemoMore.env_transfer (Resolved tt))
                "/tmp/a.vsix" "token" Demo.acme_tool).
  { left. split; [|reflexivity]. right.
    exists (ErrObject (Some 404%Z) "Not Found"). split; reflexivity. }
  split; [exact H|].
  exact (proj2 (proj2 (X9_success_iff_transfer_resolved
                         (DemoMore.env_transfer (Resolved tt)) "/tmp/a.vsix"
                         "token" Demo.acme_tool)) H).
Defined.

Lemma X11_witness :
  forallb (fun ev => uses_archive "tool.vsix" ev && negb (is_build_call ev))
    (fst (publish Demo.parse Demo.toString SemverModel.valid SemverModel.inc
            Demo.env
            (DemoMore.options (Some "tool.vsix") None None None)))
  = true.
Proof.
  apply (X11_archive_path_used_verbatim Demo.parse Demo.toString
           SemverModel.valid SemverModel.inc Demo.env
           (DemoMore.options (Some "tool.vsix") None None None) "tool.vsix");
    reflexivity.
Defined.

Lemma X12_witness :
  publish Demo.parse Demo.toString SemverModel.valid SemverModel.inc
    Demo.env_without_manifest
    (DemoMore.options (Some "tool.vsix") None None None)
  = ([EvYauzlOpen "tool.vsix"], Rejected manifest_not_found).
Proof.
  apply (X12_archive_failure_stops_publish Demo.parse Demo.toString
           SemverModel.valid SemverModel.inc Demo.env_without_manifest
           (DemoMore.options (Some "tool.vsix") None None None) "tool.vsix"
           manifest_not_found);
    reflexivity.
Defined.

Lemma X13_witness :
  forallb (fun ev => uses_token "secret" ev && negb (is_credential_lookup ev))
    (fst (publish Demo.parse Demo.toString SemverModel.valid SemverModel.inc
            (Demo.env_gallery (Resolved None))
            (DemoMore.options None None (Some "secret") None)))
  = true.
Proof.
  apply (X13_explicit_token_used Demo.parse Demo.toString SemverModel.valid
           SemverModel.inc (Demo.env_gallery (Resolved None))
           (DemoMore.options None None (Some "secret") None) "secret").
  reflexivity.
Defined.

Lemma X14_witness :
  forallb (fun ev => negb (is_manifest_call ev))
    (fst (publish Demo.parse Demo.toString SemverModel.valid SemverModel.inc
            (Demo.env_gallery (Resolved None)) Demo.no_options))
  = true.
Proof.
  apply (X14_no_directive_no_manifest_call Demo.parse Demo.toString
           SemverModel.valid SemverModel.inc
           (Demo.env_gallery (Resolved None)) Demo.no_options).
  reflexivity.
Defined.

Lemma X15_witness :
  publish Demo.parse Demo.toString SemverModel.valid SemverModel.inc
    Demo.env (DemoMore.options None (Some "next") None None)
  = ([EvReadManifest (Some "/work") (Some false)],
     Rejected (ErrString "Invalid version next")).
Proof.
  apply (X15_invalid_directive_stops_publish Demo.parse Demo.toString
           SemverModel.valid SemverModel.inc Demo.env
           (DemoMore.options None (Some "next") None None) "next"
           Demo.acme_tool);
    reflexivity.
Defined.

Lemma X16_witness :
  publish Demo.parse Demo.toString SemverModel.valid SemverModel.inc
    DemoMore.env_without_workdir_manifest
    (DemoMore.options None (Some "minor") None None)
  = ([EvReadManifest (Some "/work") (Some false)],
     Rejected DemoMore.manifest_missing).
Proof.
  apply (X16_failed_bump_stops_publish Demo.parse Demo.toString
           SemverModel.valid SemverModel.inc
           DemoMore.env_without_workdir_manifest
           (DemoMore.options None (Some "minor") None None)
           DemoMore.manifest_missing);
    reflexivity.
Defined.

Lemma X17_witness :
  versionBump DemoSemver.valid SemverModel.inc Demo.env None (Some "v1.0.0")
  = ([EvReadManifest (Some "/work") (Some false)], Resolved tt)
  /\ versionBump DemoSemver.valid SemverModel.inc Demo.env None
       (Some "v2.0.0")
     = ([EvReadManifest (Some "/work") (Some false);
         EvWriteManifest "/work"
           {| publisher := "acme"; name := "tool"; version := VStr "2.0.0";
              enableProposedApi := false |}],
        Resolved tt).
Proof.
  split.
  - apply (proj1 (X17_explicit_version_canonical DemoSemver.valid
                    SemverModel.inc Demo.env None "v1.0.0" "1.0.0"
                    Demo.acme_tool eq_refl eq_refl eq_refl
                    ltac:(discriminate) eq_refl)).
    reflexivity.
  - apply (proj2 (X17_explicit_version_canonical DemoSemver.valid
                    SemverModel.inc Demo.env None "v2.0.0" "2.0.0"
                    Demo.acme_tool eq_refl eq_refl eq_refl
                    ltac:(discriminate) eq_refl)).
    discriminate.
Defined.

Lemma X18_witness :
  publish Demo.parse Demo.toString SemverModel.valid SemverModel.inc
    DemoMore.env_without_credentials Demo.no_options
  = ([EvTmpName;
      EvPack {| pack_packagePath := "/tmp/a.vsix"; pack_cwd := None;
                pack_baseContentUrl := None; pack_baseImagesUrl := None |};
      EvGetPublisher (VStr "acme")],
     Rejected DemoMore.unknown_publisher).
Proof.
  apply (X18_credential_failure_stops_publish Demo.parse Demo.toString
           SemverModel.valid SemverModel.inc DemoMore.env_without_credentials
           Demo.no_options
           [EvTmpName;
            EvPack {| pack_packagePath := "/tmp/a.vsix"; pack_cwd := None;
                      pack_baseContentUrl := None;
                      pack_baseImagesUrl := None |}]
           {| manifest := Demo.acme_tool; packagePath := "/tmp/a.vsix" |}
           DemoMore.unknown_publisher);
    reflexivity.
Defined.

Lemma X20_witness :
  snd (unpublish_identity Demo.env (Demo.with_id "acme.tool"))
  = Resolved (VStr "acme", VStr "tool")
  /\ exists answer,
       read Demo.env (confirm_prompt "acme.tool") = Resolved answer
       /\ (answer = "y" \/ answer = "Y").
Proof.
  apply (X20_delete_only_after_matching_prompt Demo.env
           (Demo.with_id "acme.tool") (VStr "acme") (VStr "tool")).
  simpl. right. right. right. left. reflexivity.
Defined.

Lemma X22_witness :
  unpublish_identity Demo.env (Demo.with_id "acme")
  = ([], Resolved (VStr "acme", VUndefined))
  /\ In (EvRead (confirm_prompt "acme.undefined"))
       (fst (unpublish Demo.env (Demo.with_id "acme"))).
Proof.
  apply (X22_identifier_without_separator Demo.env (Demo.with_id "acme")
           "acme"); [reflexivity|discriminate|reflexivity].
Defined.

Lemma X23_witness :
  In (EvRead (confirm_prompt "acme.tool"))
    (fst (unpublish Demo.env (Demo.with_id "acme.tool"))).
Proof.
  apply (X23_prompt_quotes_identifier Demo.env (Demo.with_id "acme.tool")
           "acme.tool"); reflexivity.
Defined.

Lemma X24_witness :
  unpublish_identity Demo.env Demo.no_options
  = ([EvReadManifest None None], Resolved (VStr "acme", VStr "tool"))
  /\ unpublish DemoMore.env_without_workdir_manifest Demo.no_options
     = ([EvReadManifest None None], Rejected DemoMore.manifest_missing).
Proof.
  split.
  - apply (proj1 (X24_identity_from_manifest Demo.env Demo.no_options
                    eq_refl) Demo.acme_tool).
    reflexivity.
  - apply (proj2 (X24_identity_from_manifest
                    DemoMore.env_without_workdir_manifest Demo.no_options
                    eq_refl) DemoMore.manifest_missing).
    reflexivity.
Defined.

Lemma X25_witness :
  unpublish DemoMore.env_without_credentials (Demo.with_id "acme.tool")
  = ([EvGetPublisher (VStr "acme"); EvRead (confirm_prompt "acme.tool")],
     Rejected DemoMore.unknown_publisher).
Proof.
  apply (X25_credential_failure_after_confirmation
           DemoMore.env_without_credentials (Demo.with_id "acme.tool") []
           (VStr "acme") (VStr "tool") "y" DemoMore.unknown_publisher);
    try reflexivity.
  left. reflexivity.
Defined.

Lemma X26_witness :
  forallb (fun ev => uses_token "secret" ev && negb (is_credential_lookup ev))
    (fst (unpublish Demo.env
            (DemoMore.options None None (Some "secret") (Some "acme.tool"))))
  = true.
Proof.
  apply (X26_unpublish_explicit_token Demo.env
           (DemoMore.options None None (Some "secret") (Some "acme.tool"))
           "secret").
  reflexivity.
Defined.

Lemma X27_witness :
  list_ (DemoMore.list_env
           [DemoMore.listed "acme" "tool" ["1.0.0"];
            DemoMore.listed "other" "thing" [];
            DemoMore.listed "acme" "kit" ["2.1.0"; "2.0.0"]])
    "acme"
  = Returns ([inl (EvGetPublisher (VStr "acme"));
              inl (EvGetGalleryAPI "token"); inr list_query;
              inl (EvLog "tool @ 1.0.0"); inl (EvLog "kit @ 2.1.0")],
             Resolved tt).
Proof.
  apply (X27_list_prints_own_extensions
           (DemoMore.list_env
              [DemoMore.listed "acme" "tool" ["1.0.0"];
               DemoMore.listed "other" "thing" [];
               DemoMore.listed "acme" "kit" ["2.1.0"; "2.0.0"]])
           "acme" {| publisher_pat := "token" |}
           {| extensions :=
                [DemoMore.listed "acme" "tool" ["1.0.0"];
                 DemoMore.listed "other" "thing" [];
                 DemoMore.listed "acme" "kit" ["2.1.0"; "2.0.0"]] |} []);
    try reflexivity.
  simpl. repeat constructor; discriminate.
Defined.

Lemma X28_witness :
  list_ (DemoMore.list_env
           [DemoMore.listed "acme" "tool" ["1.0.0"];
            DemoMore.listed "acme" "draft" [];
            DemoMore.listed "acme" "kit" ["2.1.0"]])
    "acme"
  = Returns ([inl (EvGetPublisher (VStr "acme"));
              inl (EvGetGalleryAPI "token"); inr list_query;
              inl (EvLog "tool @ 1.0.0")],
             Rejected
               (ErrObject None "Cannot read property 'version' of undefined")).
Proof.
  apply (X28_list_stops_at_versionless_extension
           (DemoMore.list_env
              [DemoMore.listed "acme" "tool" ["1.0.0"];
               DemoMore.listed "acme" "draft" [];
               DemoMore.listed "acme" "kit" ["2.1.0"]])
           "acme" {| publisher_pat := "token" |}
           {| extensions :=
                [DemoMore.listed "acme" "tool" ["1.0.0"];
                 DemoMore.listed "acme" "draft" [];
                 DemoMore.listed "acme" "kit" ["2.1.0"]] |} []
           [DemoMore.listed "acme" "tool" ["1.0.0"]]
           [DemoMore.listed "acme" "kit" ["2.1.0"]]
           (DemoMore.listed "acme" "draft" []));
    try reflexivity.
  repeat constructor; discriminate.
Defined.
